(** * SafeMongo: the scan engine, its rule catalog and the severity mapping

    A shallow embedding of [src/utils/scanner.ts], [src/types.ts] and
    [src/patterns/unsafe-queries.ts], with the part of the ECMAScript
    regular-expression semantics that [RegExp.prototype.test] needs.

    A JavaScript string is a sequence of 16-bit code units; it is modelled
    as a [list N].  A RegExp object is an immutable part (source, flags,
    compiled pattern) and one mutable slot, [lastIndex], kept in a store
    that is threaded through every call of [test].

    The embedding has two levels.  The semantics is what ECMA-262 and the
    editor API define when every call returns: [test],
    [scanForUnsafePatterns], [updateDiagnostics], [scanCurrentFile].  The
    module [Runtime] has the same functions with the exceptions of the
    runtime: the RangeError of a RegExp engine whose backtracking stack is
    exhausted, and the error of [Uri.parse]. *)

From Stdlib Require Import NArith Ascii String.
From stdpp Require Import base tactics option list numbers gmap sorting.

Local Open Scope N_scope.

(** ** Code units and strings *)

Abbreviation jsstring := (list N) (only parsing).

(** A source-level string literal (ASCII only). *)
Fixpoint lit (s : string) : jsstring :=
  match s with
  | EmptyString => []
  | String a s' => N_of_ascii a :: lit s'
  end.

(** The double quote, U+0022. *)
Definition dq : jsstring := [34].
(** The line feed, U+000A, written [\n] in the source. *)
Definition nl : jsstring := [10].

(** LineTerminator: LF, CR, LS, PS. *)
Definition isLineTerminator (c : N) : bool :=
  (c =? 10) || (c =? 13) || (c =? 8232) || (c =? 8233).

(** WhiteSpace: TAB, VT, FF, ZWNBSP and the space separators (Zs). *)
Definition isWhiteSpace (c : N) : bool :=
  (c =? 9) || (c =? 11) || (c =? 12) || (c =? 32) || (c =? 160) ||
  (c =? 5760) || ((8192 <=? c) && (c <=? 8202)) || (c =? 8239) ||
  (c =? 8287) || (c =? 12288) || (c =? 65279).

(** What [\s] matches and what [String.prototype.trim] strips. *)
Definition isSpace (c : N) : bool := isWhiteSpace c || isLineTerminator c.

Definition isDigit (c : N) : bool := (48 <=? c) && (c <=? 57).
Definition isUpper (c : N) : bool := (65 <=? c) && (c <=? 90).
Definition isLower (c : N) : bool := (97 <=? c) && (c <=? 122).

(** The 63 basic word characters: [a-z], [A-Z], [0-9] and [_]. *)
Definition isWordChar (c : N) : bool :=
  isLower c || isUpper c || isDigit c || (c =? 95).

(** [String.prototype.startsWith] at position 0. *)
Fixpoint startsWith (s p : jsstring) : bool :=
  match p, s with
  | [], _ => true
  | _ :: _, [] => false
  | b :: p', a :: s' => (a =? b) && startsWith s' p'
  end.

(** [String.prototype.includes]: [p] occurs in [s] as a substring. *)
Fixpoint includes (s p : jsstring) : bool :=
  startsWith s p ||
  match s with
  | [] => false
  | _ :: s' => includes s' p
  end.

(** [String.prototype.endsWith]. *)
Definition endsWith (s p : jsstring) : bool :=
  startsWith (reverse s) (reverse p).

(** [String.prototype.split] with a separator of one code unit: the pieces
    between the occurrences of [sep]; the empty string gives one empty
    piece. *)
Fixpoint split (sep : N) (s : jsstring) : list jsstring :=
  match s with
  | [] => [[]]
  | c :: s' =>
      if c =? sep then [] :: split sep s'
      else match split sep s' with
           | [] => [[c]]
           | piece :: pieces => (c :: piece) :: pieces
           end
  end.

Fixpoint trimStart (s : jsstring) : jsstring :=
  match s with
  | [] => []
  | c :: s' => if isSpace c then trimStart s' else s
  end.

Definition trimEnd (s : jsstring) : jsstring :=
  reverse (trimStart (reverse s)).

(** [String.prototype.trim]. *)
Definition trim (s : jsstring) : jsstring := trimEnd (trimStart s).

(** ** Regular expressions: syntax *)

Inductive direction := Forward | Backward.

(** The character class escapes [\d], [\s], [\w]. *)
Inductive class_escape := EscDigit | EscSpace | EscWord.

Inductive class_atom :=
| ClassChar (c : N)
| ClassRange (lo hi : N)
| ClassEscape (negated : bool) (e : class_escape).

(** Patterns.  A pattern character [c] is [CharClass false [ClassChar c]];
    capturing and non-capturing groups are both [Group], since [test] does
    not observe captures and the syntax has no backreference. *)
Inductive regex :=
| REmpty
| Dot
| CharClass (invert : bool) (atoms : list class_atom)
| Seq (r1 r2 : regex)
| Disjunction (r1 r2 : regex)
| Quantified (r : regex) (min : nat) (max : option nat) (greedy : bool)
| Group (r : regex)
| AssertStart
| AssertEnd
| WordBoundary (negated : bool)
| Lookaround (dir : direction) (negated : bool) (r : regex).

(** ** Regular expressions: the backtracking matcher of ECMA-262, 22.2.2

    A match state is the end index; a continuation takes a state to a match
    result; a matcher takes a state and a continuation. *)

Definition MatchResult := option nat.
Definition Continuation := nat → MatchResult.
Definition Matcher := nat → Continuation → MatchResult.

Definition orElse (r : MatchResult) (k : MatchResult) : MatchResult :=
  match r with
  | Some e => Some e
  | None => k
  end.

Section Matching.
Variable Input : jsstring.
Variable ignoreCase : bool.

(** Canonicalize, without the unicode flag: the upper-case form of a code
    unit.  For a code unit of 128 or more the canonical form is again 128
    or more (step "if ch >= 128 and cu < 128, return ch"), so it never
    meets an ASCII pattern character or class bound; the Unicode case
    table is not modelled and such a unit is left as it is.  The parser
    below accepts only ASCII patterns. *)
Definition Canonicalize (c : N) : N :=
  if ignoreCase && isLower c then c - 32 else c.

Definition escape_mem (e : class_escape) (cc : N) : bool :=
  match e with
  | EscDigit => isDigit cc
  | EscSpace => isSpace cc
  | EscWord => isWordChar cc
  end.

(** Is some member of [lo-hi] canonicalized to [cc]? *)
Definition range_mem (lo hi cc : N) : bool :=
  ((lo <=? cc) && (cc <=? hi) && (Canonicalize cc =? cc)) ||
  (ignoreCase && isUpper cc && (lo <=? cc + 32) && (cc + 32 <=? hi)).

(** Is some member of the atom's set canonicalized to [cc]? ([cc] is the
    canonical form of the input character.) *)
Definition atom_mem (a : class_atom) (cc : N) : bool :=
  match a with
  | ClassChar c => Canonicalize c =? cc
  | ClassRange lo hi => range_mem lo hi cc
  | ClassEscape negated e => xorb negated (escape_mem e cc)
  end.

Definition class_mem (atoms : list class_atom) (cc : N) : bool :=
  existsb (λ a, atom_mem a cc) atoms.

(** CharacterSetMatcher: one code unit, read at the end index going
    forward and before it going backward. *)
Definition CharacterSetMatcher (A : N → bool) (invert : bool)
    (dir : direction) : Matcher :=
  λ x c,
    match dir with
    | Forward =>
        match Input !! x with
        | None => None
        | Some chr =>
            if xorb invert (A (Canonicalize chr)) then c (S x) else None
        end
    | Backward =>
        match x with
        | O => None
        | S x' =>
            match Input !! x' with
            | None => None
            | Some chr =>
                if xorb invert (A (Canonicalize chr)) then c x' else None
            end
        end
    end.

(** IsWordChar(e): false outside the input. *)
Definition IsWordCharAt (e : nat) : bool :=
  match Input !! e with
  | Some c => isWordChar c
  | None => false
  end.

Definition IsWordCharBefore (e : nat) : bool :=
  match e with
  | O => false
  | S e' => IsWordCharAt e'
  end.

(** RepeatMatcher.  An iteration with [min = 0] that ends where it began
    is rejected, so [min] iterations and then one per code unit of the
    input are all there can be.  [fuel] bounds the iterations; the bound
    that [CompileSubpattern] passes is never reached
    ([CompileSubpattern_extra]). *)
Fixpoint RepeatMatcher (fuel : nat) (m : Matcher) (min : nat)
    (max : option nat) (greedy : bool) (x : nat) (c : Continuation)
    : MatchResult :=
  if bool_decide (max = Some O) then c x else
  match fuel with
  | O => None
  | S fuel' =>
      let d : Continuation := λ y,
        if bool_decide (min = O) && bool_decide (y = x) then None
        else RepeatMatcher fuel' m (pred min) (pred <$> max) greedy y c in
      if negb (bool_decide (min = O)) then m x d
      else if greedy then orElse (m x d) (c x)
      else orElse (c x) (m x d)
  end.

(** The iterations a quantifier is allowed: [min], one per code unit, one
    to stop, and [extra] more. *)
Definition repeat_fuel (extra min : nat) : nat :=
  (extra + S (min + length Input))%nat.

Fixpoint CompileSubpattern (extra : nat) (r : regex) (dir : direction)
    : Matcher :=
  match r with
  | REmpty => λ x c, c x
  | Dot => CharacterSetMatcher (λ cc, negb (isLineTerminator cc)) false dir
  | CharClass invert atoms => CharacterSetMatcher (class_mem atoms) invert dir
  | Seq r1 r2 =>
      let m1 := CompileSubpattern extra r1 dir in
      let m2 := CompileSubpattern extra r2 dir in
      match dir with
      | Forward => λ x c, m1 x (λ y, m2 y c)
      | Backward => λ x c, m2 x (λ y, m1 y c)
      end
  | Disjunction r1 r2 =>
      let m1 := CompileSubpattern extra r1 dir in
      let m2 := CompileSubpattern extra r2 dir in
      λ x c, orElse (m1 x c) (m2 x c)
  | Quantified r min max greedy =>
      let m := CompileSubpattern extra r dir in
      λ x c, RepeatMatcher (repeat_fuel extra min) m min max greedy x c
  | Group r => CompileSubpattern extra r dir
  | AssertStart => λ x c, if bool_decide (x = O) then c x else None
  | AssertEnd => λ x c, if bool_decide (x = length Input) then c x else None
  | WordBoundary negated =>
      λ x c,
        let a := IsWordCharBefore x in
        let b := IsWordCharAt x in
        if xorb negated (xorb a b) then c x else None
  | Lookaround dir' negated r =>
      let m := CompileSubpattern extra r dir' in
      λ x c,
        match m x (λ y, Some y) with
        | Some _ => if negated then None else c x
        | None => if negated then c x else None
        end
  end.

(** CompilePattern: the matcher at a start index, going forward. *)
Definition CompilePattern (r : regex) (index : nat) : MatchResult :=
  CompileSubpattern O r Forward index (λ y, Some y).

End Matching.

(** ** RegExp objects

    [regexp_id] is the identity of the object; its [lastIndex] is the entry
    of the store at that key (0 when absent, as in a fresh object). *)

Record RegExp := {
  regexp_id : nat;
  source : jsstring;
  global : bool;
  ignoreCase : bool;
  sticky : bool;
  matcher : regex;
}.

Abbreviation store := (gmap nat nat) (only parsing).

Definition lastIndex (R : RegExp) (σ : store) : nat :=
  default O (σ !! regexp_id R).

(** The loop of RegExpBuiltinExec: [n] start indices are left to try, from
    [index] to the length of the input.  The result is the start and the
    end of the first match. *)
Fixpoint exec_from (m : nat → MatchResult) (sticky : bool) (n index : nat)
    : option (nat * nat) :=
  match n with
  | O => None
  | S n' =>
      match m index with
      | Some e => Some (index, e)
      | None => if sticky then None else exec_from m sticky n' (S index)
      end
  end.

(** RegExpBuiltinExec(R, S), without the result array: only a global or
    sticky RegExp reads and writes [lastIndex]. *)
Definition RegExpBuiltinExec (R : RegExp) (str : jsstring) (σ : store)
    : option (nat * nat) * store :=
  let stateful := global R || sticky R in
  let start := if stateful then lastIndex R σ else O in
  let m := CompilePattern str (ignoreCase R) (matcher R) in
  match exec_from m (sticky R) (S (length str) - start) start with
  | None => (None, if stateful then <[regexp_id R := O]> σ else σ)
  | Some (i, e) => (Some (i, e), if stateful then <[regexp_id R := e]> σ else σ)
  end.

(** [RegExp.prototype.test], by the semantics: ECMA-262 gives it no abrupt
    completion on a RegExp object.  [Runtime.test] is the call on an engine
    with a bounded backtracking stack, which can throw. *)
Definition test (R : RegExp) (str : jsstring) (σ : store) : bool * store :=
  let '(r, σ') := RegExpBuiltinExec R str σ in
  (bool_decide (is_Some r), σ').

(** ** Regular expressions: the parser of pattern sources

    The part of the Pattern grammar that is modelled: disjunction,
    quantifiers (greedy and lazy), groups, lookahead and lookbehind, classes
    with ranges, [.], [^], [$], [\b], [\B], the class escapes, the control
    escapes and identity escapes of punctuation.  Anything else
    (backreferences, named groups, [\x], [\u], [\c], unescaped braces or
    closing bracket, a code unit of 128 or more) is refused with [None]. *)

Definition isChar (a : ascii) (c : N) : bool := c =? N_of_ascii a.

Definition isAlnum (c : N) : bool := isLower c || isUpper c || isDigit c.

Definition isSyntaxCharacter (c : N) : bool :=
  existsb (N.eqb c) (lit "^$\.*+?()[]{}|").

Fixpoint parseDecimal (acc : nat) (s : jsstring) : nat * jsstring :=
  match s with
  | c :: s' =>
      if isDigit c then parseDecimal (10 * acc + N.to_nat (c - 48)) s'
      else (acc, s)
  | [] => (acc, s)
  end.

(** The optional [?] after a quantifier prefix makes it lazy. *)
Definition withGreedy (r : regex) (min : nat) (max : option nat)
    (s : jsstring) : regex * jsstring :=
  match s with
  | c :: s' =>
      if isChar "?" c then (Quantified r min max false, s')
      else (Quantified r min max true, s)
  | [] => (Quantified r min max true, s)
  end.

(** The quantifier after an atom, when there is one. *)
Definition parseQuantifier (r : regex) (s : jsstring)
    : option (regex * jsstring) :=
  match s with
  | [] => Some (r, s)
  | c :: s1 =>
      if isChar "*" c then Some (withGreedy r 0 None s1)
      else if isChar "+" c then Some (withGreedy r 1 None s1)
      else if isChar "?" c then Some (withGreedy r 0 (Some 1%nat) s1)
      else if isChar "{" c then
        match s1 with
        | d :: _ =>
            if isDigit d then
              let '(n, s2) := parseDecimal 0 s1 in
              match s2 with
              | e :: s3 =>
                  if isChar "}" e then Some (withGreedy r n (Some n) s3)
                  else if isChar "," e then
                    match s3 with
                    | f :: s4 =>
                        if isChar "}" f then Some (withGreedy r n None s4)
                        else if isDigit f then
                          let '(m, s5) := parseDecimal 0 s3 in
                          match s5 with
                          | g :: s6 =>
                              if isChar "}" g && bool_decide (n ≤ m)%nat
                              then Some (withGreedy r n (Some m) s6)
                              else None
                          | [] => None
                          end
                        else None
                    | [] => None
                    end
                  else None
              | [] => None
              end
            else None
        | [] => None
        end
      else Some (r, s)
  end.

(** The character after a backslash, as a class atom; [inClass] tells
    whether it stands inside a class, where [\b] is the backspace and [\-]
    is allowed. *)
Definition parseEscape (inClass : bool) (c : N) : option class_atom :=
  if isChar "d" c then Some (ClassEscape false EscDigit)
  else if isChar "D" c then Some (ClassEscape true EscDigit)
  else if isChar "s" c then Some (ClassEscape false EscSpace)
  else if isChar "S" c then Some (ClassEscape true EscSpace)
  else if isChar "w" c then Some (ClassEscape false EscWord)
  else if isChar "W" c then Some (ClassEscape true EscWord)
  else if isChar "t" c then Some (ClassChar 9)
  else if isChar "n" c then Some (ClassChar 10)
  else if isChar "v" c then Some (ClassChar 11)
  else if isChar "f" c then Some (ClassChar 12)
  else if isChar "r" c then Some (ClassChar 13)
  else if isChar "b" c then (if inClass then Some (ClassChar 8) else None)
  else if isAlnum c || (c =? 95) || (128 <=? c) then None
  else Some (ClassChar c).

(** One class atom: a character or an escape. *)
Definition parseClassAtom (s : jsstring) : option (class_atom * jsstring) :=
  match s with
  | [] => None
  | c :: s1 =>
      if isChar "\" c then
        match s1 with
        | e :: s2 => a ← parseEscape true e; Some (a, s2)
        | [] => None
        end
      else if isChar "]" c || (128 <=? c) then None
      else Some (ClassChar c, s1)
  end.

(** ClassRanges, up to and including the closing bracket. *)
Fixpoint parseClassRanges (fuel : nat) (s : jsstring)
    : option (list class_atom * jsstring) :=
  match fuel with
  | O => None
  | S fuel =>
      match s with
      | [] => None
      | c :: s1 =>
          if isChar "]" c then Some ([], s1)
          else
            '(a, s2) ← parseClassAtom s;
            match s2 with
            | h :: (n :: _) as s3 =>
                if isChar "-" h && negb (isChar "]" n) then
                  '(b, s4) ← parseClassAtom s3;
                  match a, b with
                  | ClassChar lo, ClassChar hi =>
                      if lo <=? hi then
                        '(rest, s5) ← parseClassRanges fuel s4;
                        Some (ClassRange lo hi :: rest, s5)
                      else None
                  | _, _ => None
                  end
                else
                  '(rest, s5) ← parseClassRanges fuel s2;
                  Some (a :: rest, s5)
            | _ =>
                '(rest, s5) ← parseClassRanges fuel s2;
                Some (a :: rest, s5)
            end
      end
  end.

Definition parseClass (s : jsstring) : option (regex * jsstring) :=
  match s with
  | c :: s1 =>
      if isChar "^" c then
        '(atoms, s2) ← parseClassRanges (S (length s1)) s1;
        Some (CharClass true atoms, s2)
      else
        '(atoms, s2) ← parseClassRanges (S (length s)) s;
        Some (CharClass false atoms, s2)
  | [] => None
  end.

(** What follows an opening parenthesis: the wrapper of the group and
    whether a quantifier may follow it. *)
Definition parseGroupHead (s : jsstring)
    : option ((regex → regex) * bool * jsstring) :=
  match s with
  | q :: s1 =>
      if isChar "?" q then
        match s1 with
        | k :: s2 =>
            if isChar ":" k then Some (Group, true, s2)
            else if isChar "=" k then Some (Lookaround Forward false, false, s2)
            else if isChar "!" k then Some (Lookaround Forward true, false, s2)
            else if isChar "<" k then
              match s2 with
              | j :: s3 =>
                  if isChar "=" j then Some (Lookaround Backward false, false, s3)
                  else if isChar "!" j then Some (Lookaround Backward true, false, s3)
                  else None
              | [] => None
              end
            else None
        | [] => None
        end
      else Some (Group, true, s)
  | [] => None
  end.

Fixpoint parseDisjunction (fuel : nat) (s : jsstring)
    : option (regex * jsstring) :=
  match fuel with
  | O => None
  | S fuel =>
      '(r1, s1) ← parseAlternative fuel s;
      match s1 with
      | c :: s2 =>
          if isChar "|" c then
            '(r2, s3) ← parseDisjunction fuel s2;
            Some (Disjunction r1 r2, s3)
          else Some (r1, s1)
      | [] => Some (r1, s1)
      end
  end
with parseAlternative (fuel : nat) (s : jsstring)
    : option (regex * jsstring) :=
  match fuel with
  | O => None
  | S fuel =>
      match s with
      | [] => Some (REmpty, s)
      | c :: _ =>
          if isChar "|" c || isChar ")" c then Some (REmpty, s)
          else
            '(t, s1) ← parseTerm fuel s;
            '(r, s2) ← parseAlternative fuel s1;
            Some (Seq t r, s2)
      end
  end
with parseTerm (fuel : nat) (s : jsstring) : option (regex * jsstring) :=
  match fuel with
  | O => None
  | S fuel =>
      match s with
      | [] => None
      | c :: s1 =>
          if isChar "^" c then Some (AssertStart, s1)
          else if isChar "$" c then Some (AssertEnd, s1)
          else if isChar "." c then parseQuantifier Dot s1
          else if isChar "[" c then
            '(r, s2) ← parseClass s1; parseQuantifier r s2
          else if isChar "(" c then
            '(wrap, quantifiable, s2) ← parseGroupHead s1;
            '(r, s3) ← parseDisjunction fuel s2;
            match s3 with
            | p :: s4 =>
                if isChar ")" p then
                  if quantifiable : bool then parseQuantifier (wrap r) s4
                  else Some (wrap r, s4)
                else None
            | [] => None
            end
          else if isChar "\" c then
            match s1 with
            | e :: s2 =>
                if isChar "b" e then Some (WordBoundary false, s2)
                else if isChar "B" e then Some (WordBoundary true, s2)
                else
                  a ← parseEscape false e;
                  parseQuantifier (CharClass false [a]) s2
            | [] => None
            end
          else if isSyntaxCharacter c || (128 <=? c) then None
          else parseQuantifier (CharClass false [ClassChar c]) s1
      end
  end.

(** ParsePattern: the whole source must be one Disjunction. *)
Definition ParsePattern (P : jsstring) : option regex :=
  match parseDisjunction (3 * length P + 3) P with
  | Some (r, []) => Some r
  | _ => None
  end.

(** The flags [g], [i] and [y], each at most once; other flags are not
    modelled. *)
Fixpoint parseFlags (F : jsstring) (g i y : bool) : option (bool * bool * bool) :=
  match F with
  | [] => Some (g, i, y)
  | c :: F' =>
      if isChar "g" c then (if g then None else parseFlags F' true i y)
      else if isChar "i" c then (if i then None else parseFlags F' g true y)
      else if isChar "y" c then (if y then None else parseFlags F' g i true)
      else None
  end.

(** RegExpCreate(P, F) for the object of identity [n]; [None] stands for
    the SyntaxError. *)
Definition RegExpCreate (n : nat) (P F : jsstring) : option RegExp :=
  r ← ParsePattern P;
  '(g, i, y) ← parseFlags F false false false;
  Some {| regexp_id := n; source := P; global := g; ignoreCase := i;
          sticky := y; matcher := r |}.

(** A regular-expression literal [/P/F] of the source text.  The catalog's
    literals are all well formed ([unsafePatterns_compiled]); the default is
    a RegExp that matches nothing. *)
Definition regexp (n : nat) (P F : jsstring) : RegExp :=
  default {| regexp_id := n; source := P; global := false;
             ignoreCase := false; sticky := false;
             matcher := CharClass false [] |}
          (RegExpCreate n P F).

(** ** The data model of [src/types.ts] *)

Inductive Severity := low | medium | high.

(** A [Severity] is one of three strings. *)
Definition Severity_string (s : Severity) : jsstring :=
  match s with
  | low => lit "low"
  | medium => lit "medium"
  | high => lit "high"
  end.

Record UnsafePattern := {
  id : jsstring;
  name : jsstring;
  pattern : RegExp;
  description : jsstring;
  severity : Severity;
  suggestion : jsstring;
  example : jsstring;
  safeExample : jsstring;
  docUrl : jsstring;
}.

Module Detection.
Record t := mk {
  pattern : UnsafePattern;
  lineNumber : nat;
  matchedText : jsstring;
}.
End Detection.

Abbreviation Detection := Detection.t.

(** ** The rule catalog of [src/patterns/unsafe-queries.ts]

    The RegExp of the [n]-th entry is the object of identity [n]. *)

Definition unsafePatterns : list UnsafePattern := [
  {| id := lit "FUNCTION_PARAMETER_INJECTION";
     name := lit "Function Parameter Injection";
     pattern := regexp 0
       (lit "\.(find|findOne|aggregate|update|delete)\s*\(\s*\{\s*[a-zA-Z0-9_]+\s*:\s*(\w+)(?!\()")
       (lit "i");
     description :=
       lit "Using unvalidated function parameters directly in queries " ++
       lit "can lead to query injection attacks";
     severity := high;
     suggestion :=
       lit "Validate and sanitize all function parameters before using " ++
       lit "them in database queries. Consider using schema validation " ++
       lit "or type checking.";
     example :=
       lit "const getUser = (username) => db.users.find({ username });";
     safeExample :=
       lit "const getUser = (username) => {" ++ nl ++
       lit "  if (typeof username !== 'string' || !username) throw new " ++
       lit "Error('Invalid username');" ++ nl ++
       lit "  return db.users.find({ username });" ++ nl ++ lit "};";
     docUrl :=
       lit "https://www.mongodb.com/docs/manual/core/security-input-validation/" |};
  {| id := lit "TEMPLATE_STRING_INJECTION";
     name := lit "Template String Injection";
     pattern := regexp 1
       (lit "db\.[a-zA-Z0-9_]+\.(find|findOne|aggregate|update|delete)\s*\(\s*\`.*?\$\{.*?\}.*?\`")
       (lit "i");
     description :=
       lit "Using template literals with interpolated values in MongoDB " ++
       lit "queries can lead to injection attacks";
     severity := high;
     suggestion :=
       lit "Never use template literals to construct MongoDB queries. " ++
       lit "Use parameterized objects instead.";
     example :=
       lit "db.users.find(`{ username: " ++ dq ++ lit "${username}" ++ dq ++
       lit " }`);";
     safeExample :=
       lit "db.users.find({ username: sanitizedUsername });";
     docUrl :=
       lit "https://www.mongodb.com/docs/manual/faq/fundamentals/#how-does-mongodb-address-sql-or-query-injection" |};
  {| id := lit "ARRAY_FILTER_INJECTION";
     name := lit "Array Filter Injection";
     pattern := regexp 2
       (lit "\$\[\s*\w+\s*\]")
       (lit "i");
     description :=
       lit "Using unvalidated identifiers in array filters can lead to " ++
       lit "query injection";
     severity := medium;
     suggestion :=
       lit "Validate array filter identifiers and ensure they only " ++
       lit "contain alphanumeric characters";
     example :=
       lit "db.collection.updateOne({}, { $set: { 'items.$[userInput]': " ++
       lit "newValue } });";
     safeExample :=
       lit "const filterId = /^[a-zA-Z0-9]+$/.test(userInput) ? " ++
       lit "userInput : 'default';" ++ nl ++
       lit "db.collection.updateOne({}, { $set: { " ++
       lit "[`items.$[${filterId}]`]: newValue } });";
     docUrl :=
       lit "https://www.mongodb.com/docs/manual/reference/operator/update/positional-filtered/" |};
  {| id := lit "DIRECT_QUERY_VARIABLE_ASSIGNMENT";
     name := lit "Direct Query Variable Assignment";
     pattern := regexp 3
       (lit "const\s+query\s*=\s*req\.(body|params|query)")
       (lit "i");
     description :=
       lit "Directly assigning request data to a query variable can " ++
       lit "lead to query injection";
     severity := high;
     suggestion :=
       lit "Never assign user input directly to query objects. Always " ++
       lit "construct queries with validated fields.";
     example :=
       lit "const query = req.query;" ++ nl ++ lit "db.users.find(query);";
     safeExample :=
       lit "const { name, email } = validateUserInput(req.query);" ++ nl ++
       lit "db.users.find({ name, email });";
     docUrl :=
       lit "https://www.mongodb.com/docs/manual/core/security-input-validation/" |};
  {| id := lit "BULK_OPERATION_INJECTION";
     name := lit "Bulk Operation Injection";
     pattern := regexp 4
       (lit "\.bulkWrite\s*\(\s*(\w+)(?!\()")
       (lit "i");
     description :=
       lit "Using unvalidated input in bulk operations can lead to mass " ++
       lit "data manipulation";
     severity := high;
     suggestion :=
       lit "Validate each operation in a bulk write array before " ++
       lit "execution";
     example :=
       lit "db.collection.bulkWrite(userOperations);";
     safeExample :=
       lit "const validatedOps = validateBulkOperations(userOperations);" ++ nl ++
       lit "if (validatedOps) db.collection.bulkWrite(validatedOps);";
     docUrl :=
       lit "https://www.mongodb.com/docs/manual/reference/method/db.collection.bulkWrite/" |};
  {| id := lit "EVAL_USAGE";
     name := lit "Eval Usage";
     pattern := regexp 5
       (lit "db\.eval\s*\(")
       (lit "i");
     description :=
       lit "Using db.eval() is deprecated and extremely dangerous as it " ++
       lit "allows arbitrary JavaScript execution";
     severity := high;
     suggestion :=
       lit "Never use db.eval(). Use aggregation framework or other " ++
       lit "MongoDB features instead.";
     example :=
       lit "db.eval('function() { return db.users.findOne(); }');";
     safeExample :=
       lit "db.users.findOne();";
     docUrl :=
       lit "https://www.mongodb.com/docs/manual/reference/method/db.eval/#security" |};
  {| id := lit "INSECURE_AUTH_CHECKS";
     name := lit "Insecure Authentication Checks";
     pattern := regexp 6
       (lit "\.(find|findOne)\s*\(\s*\{\s*.*?password.*?\}\s*\)")
       (lit "i");
     description :=
       lit "Performing authentication through find operations can " ++
       lit "expose passwords or allow bypass";
     severity := high;
     suggestion :=
       lit "Use secure authentication mechanisms like Passport.js or " ++
       lit "MongoDB's built-in auth. Never query passwords directly.";
     example :=
       lit "db.users.findOne({ username, password: plainTextPassword });";
     safeExample :=
       lit "const user = await db.users.findOne({ username });" ++ nl ++
       lit "const isMatch = await bcrypt.compare(password, " ++
       lit "user.passwordHash);";
     docUrl :=
       lit "https://www.mongodb.com/docs/manual/core/security-scram/" |};
  {| id := lit "WEAK_INDEXING";
     name := lit "Weak Indexing";
     pattern := regexp 7
       (lit "createIndex\s*\(\s*\{\s*.*?\s*\}\s*,\s*\{\s*(?!.*?unique).*?\}\s*\)")
       (lit "i");
     description :=
       lit "Not using unique indexes for identity fields can lead to " ++
       lit "duplicate records and security issues";
     severity := medium;
     suggestion :=
       lit "Use unique indexes for identity fields like username, " ++
       lit "email, and account numbers";
     example :=
       lit "db.users.createIndex({ email: 1 });";
     safeExample :=
       lit "db.users.createIndex({ email: 1 }, { unique: true });";
     docUrl :=
       lit "https://www.mongodb.com/docs/manual/core/index-unique/" |};
  {| id := lit "DIRECT_JSON_PARSE";
     name := lit "Direct JSON Parse to Query";
     pattern := regexp 8
       (lit "JSON\.parse\s*\(.*?\)\s*.*?(\.find|\.findOne|\.update|\.delete)")
       (lit "i");
     description :=
       lit "Parsing JSON directly from external sources into queries " ++
       lit "can lead to injection attacks";
     severity := high;
     suggestion :=
       lit "Validate parsed JSON against a schema before using it in " ++
       lit "database operations";
     example :=
       lit "const query = JSON.parse(queryString);" ++ nl ++
       lit "db.users.find(query);";
     safeExample :=
       lit "const parsedData = JSON.parse(queryString);" ++ nl ++
       lit "const validatedQuery = validateQuerySchema(parsedData);" ++ nl ++
       lit "db.users.find(validatedQuery);";
     docUrl :=
       lit "https://www.mongodb.com/docs/manual/faq/fundamentals/#how-does-mongodb-address-sql-or-query-injection" |};
  {| id := lit "TRANSACTION_WITHOUT_ERROR_HANDLING";
     name := lit "Transaction Without Error Handling";
     pattern := regexp 9
       (lit "startSession\s*\(\s*\).*?withTransaction.*?(?!\s*catch\s*\()")
       (lit "i");
     description :=
       lit "MongoDB transactions without proper error handling can " ++
       lit "leave data in an inconsistent state";
     severity := medium;
     suggestion :=
       lit "Always use try/catch/finally blocks with transactions and " ++
       lit "implement proper error handling";
     example :=
       lit "session.withTransaction(() => { /* operations */ });";
     safeExample :=
       lit "try {" ++ nl ++
       lit "  await session.withTransaction(async () => { /* operations " ++
       lit "*/ });" ++ nl ++ lit "} catch (error) {" ++ nl ++
       lit "  // Handle error and rollback if needed" ++ nl ++ lit "} finally {" ++
       nl ++ lit "  await session.endSession();" ++ nl ++ lit "}";
     docUrl :=
       lit "https://www.mongodb.com/docs/manual/core/transactions-in-applications/#error-handling" |};
  {| id := lit "NOSQL_INJECTION_OBJECT";
     name := lit "NoSQL Injection (Object)";
     pattern := regexp 10
       (lit "\{\s*(\$where|\$expr)\s*:")
       (lit "i");
     description :=
       lit "Using $where or $expr operators can lead to NoSQL injection " ++
       lit "if user input is not properly sanitized";
     severity := high;
     suggestion :=
       lit "Validate and sanitize all user inputs. Avoid using $where " ++
       lit "or $expr with user input. Use specific field queries " ++
       lit "instead.";
     example :=
       lit "db.users.find({ $where: " ++ dq ++ lit "this.username === '" ++ dq ++
       lit " + username + " ++ dq ++ lit "'" ++ dq ++ lit " });";
     safeExample :=
       lit "db.users.find({ username: sanitizedUsername });";
     docUrl :=
       lit "https://www.mongodb.com/docs/manual/reference/operator/query/where/#security" |};
  {| id := lit "NOSQL_INJECTION_REGEX";
     name := lit "NoSQL Injection (Regex)";
     pattern := regexp 11
       (lit "\{\s*['" ++ dq ++
        lit "a-zA-Z0-9_]+\s*:\s*new\s+RegExp\s*\(\s*.*?\s*\)")
       (lit "i");
     description :=
       lit "Using RegExp with user input can lead to regex injection " ++
       lit "attacks or denial of service (ReDoS)";
     severity := high;
     suggestion :=
       lit "Validate the user input and ensure it doesn't contain regex " ++
       lit "special characters. Consider using exact matches instead.";
     example :=
       lit "db.users.find({ username: new RegExp(userInput) });";
     safeExample :=
       lit "db.users.find({ username: sanitizedUsername });";
     docUrl :=
       lit "https://www.mongodb.com/docs/manual/reference/operator/query/regex/#security" |};
  {| id := lit "NOSQL_INJECTION_STRING";
     name := lit "NoSQL Injection (String Concatenation)";
     pattern := regexp 12
       (lit "db\.[a-zA-Z0-9_]+\.(find|findOne|aggregate|update|delete)\s*\(\s*['" ++
        dq ++ lit "`]\s*\{\s*.*?\$.*?\}\s*['" ++ dq ++ lit "`]\s*\+")
       (lit "i");
     description :=
       lit "String concatenation to build query objects can lead to " ++
       lit "NoSQL injection";
     severity := high;
     suggestion :=
       lit "Never construct MongoDB queries using string concatenation. " ++
       lit "Use parameterized queries with proper objects.";
     example :=
       lit "db.users.find(" ++ dq ++ lit "{ username: '" ++ dq ++
       lit " + username + " ++ dq ++ lit "' }" ++ dq ++ lit ");";
     safeExample :=
       lit "db.users.find({ username: sanitizedUsername });";
     docUrl :=
       lit "https://www.mongodb.com/docs/manual/faq/fundamentals/#how-does-mongodb-address-sql-or-query-injection" |};
  {| id := lit "UNVALIDATED_USER_INPUT";
     name := lit "Unvalidated User Input in Query";
     pattern := regexp 13
       (lit "\{\s*['" ++ dq ++
        lit "a-zA-Z0-9_]+\s*:\s*req\.body\.|req\.params\.|req\.query\.")
       (lit "i");
     description :=
       lit "Using unvalidated user input directly in queries can lead " ++
       lit "to NoSQL injection attacks";
     severity := high;
     suggestion :=
       lit "Always validate and sanitize user input before using it in " ++
       lit "database queries. Use validation libraries like Zod or Joi.";
     example :=
       lit "db.users.find({ username: req.body.username });";
     safeExample :=
       lit "const schema = z.object({ username: z.string() });" ++ nl ++
       lit "const { username } = schema.parse(req.body);" ++ nl ++
       lit "db.users.find({ username });";
     docUrl :=
       lit "https://www.mongodb.com/docs/manual/core/security-input-validation/" |};
  {| id := lit "INSECURE_PROJECTION";
     name := lit "Insecure Projection";
     pattern := regexp 14
       (lit "\.(find|findOne)\s*\(\s*.*?\s*,\s*\{\s*(['" ++ dq ++
        lit "a-zA-Z0-9_]+\s*:\s*0|['" ++ dq ++
        lit "a-zA-Z0-9_]+\s*:\s*false)\s*\}")
       (lit "i");
     description :=
       lit "Excluding fields in projection (using 0 or false) can " ++
       lit "unintentionally expose sensitive data";
     severity := medium;
     suggestion :=
       lit "Use positive projections (inclusion with 1) instead of " ++
       lit "negative projections (exclusion with 0) to explicitly " ++
       lit "specify which fields to return.";
     example :=
       lit "db.users.find({}, { password: 0, secretKey: 0 });";
     safeExample :=
       lit "db.users.find({}, { username: 1, email: 1 });";
     docUrl :=
       lit "https://www.mongodb.com/docs/manual/reference/operator/projection/positional/#security" |};
  {| id := lit "INSECURE_AGGREGATION";
     name := lit "Insecure Aggregation Pipeline";
     pattern := regexp 15
       (lit "\.aggregate\s*\(\s*\[\s*\{\s*\$project\s*:\s*\{.*?(\$literal|\$eval|\$function).*?\}\s*\}")
       (lit "i");
     description :=
       lit "Using operators like $literal, $eval, or $function in " ++
       lit "aggregation pipelines with user input can lead to code " ++
       lit "injection";
     severity := high;
     suggestion :=
       lit "Avoid using $literal, $eval, or $function operators with " ++
       lit "user input. Validate and sanitize all input used in " ++
       lit "aggregation pipelines.";
     example :=
       lit "db.users.aggregate([{ $project: { computed: { $eval: " ++
       lit "userInput } } }]);";
     safeExample :=
       lit "db.users.aggregate([{ $project: { computed: { $sum: [" ++ dq ++
       lit "$field1" ++ dq ++ lit ", " ++ dq ++ lit "$field2" ++ dq ++
       lit "] } } }]);";
     docUrl :=
       lit "https://www.mongodb.com/docs/manual/reference/operator/aggregation/project/#security" |};
  {| id := lit "UNCONSTRAINED_QUERY";
     name := lit "Unconstrained Query";
     pattern := regexp 16
       (lit "\.(find|findOne|update|delete)\s*\(\s*\{\s*\}\s*\)")
       (lit "i");
     description :=
       lit "Querying without constraints can lead to retrieving or " ++
       lit "modifying all documents, potentially leaking sensitive data";
     severity := medium;
     suggestion :=
       lit "Always use specific query criteria to limit the scope of " ++
       lit "database operations.";
     example :=
       lit "db.users.find({});";
     safeExample :=
       lit "db.users.find({ active: true, role: " ++ dq ++ lit "user" ++ dq ++
       lit " });";
     docUrl :=
       lit "https://www.mongodb.com/docs/manual/reference/method/db.collection.find/#security" |};
  {| id := lit "MASS_ASSIGNMENT";
     name := lit "Mass Assignment Vulnerability";
     pattern := regexp 17
       (lit "\.(insertOne|insertMany|updateOne|updateMany|findOneAndUpdate)\s*\(\s*.*?,\s*\{\s*\$set\s*:\s*req\.body\s*\}")
       (lit "i");
     description :=
       lit "Using the entire request body in updates can lead to mass " ++
       lit "assignment vulnerabilities";
     severity := high;
     suggestion :=
       lit "Explicitly select which fields from the request body should " ++
       lit "be updated. Never use the entire req.body object directly.";
     example :=
       lit "db.users.updateOne({ _id }, { $set: req.body });";
     safeExample :=
       lit "const { name, email } = req.body;" ++ nl ++
       lit "db.users.updateOne({ _id }, { $set: { name, email } });";
     docUrl :=
       lit "https://www.mongodb.com/docs/manual/core/security-input-validation/" |};
  {| id := lit "INSECURE_INDEXING";
     name := lit "Insecure Text Indexing";
     pattern := regexp 18
       (lit "createIndex\s*\(\s*\{\s*.*?:\s*['" ++ dq ++ lit "]text['" ++ dq ++
        lit "]\s*\}")
       (lit "i");
     description :=
       lit "Text indices can be resource-intensive and susceptible to " ++
       lit "DoS attacks if not properly secured";
     severity := medium;
     suggestion :=
       lit "Limit text search queries, apply rate limiting, and ensure " ++
       lit "indices are created on specific fields only.";
     example :=
       lit "db.collection.createIndex({ content: " ++ dq ++ lit "text" ++ dq ++
       lit " });";
     safeExample :=
       lit "db.collection.createIndex({ title: " ++ dq ++ lit "text" ++ dq ++
       lit " }, { weights: { title: 10 }, default_language: " ++ dq ++
       lit "english" ++ dq ++ lit " });";
     docUrl :=
       lit "https://www.mongodb.com/docs/manual/core/text-search-languages/#security" |};
  {| id := lit "UNAUTHORIZED_SCHEMA_MODIFICATION";
     name := lit "Unauthorized Schema Modification";
     pattern := regexp 19
       (lit "\.(createCollection|dropCollection|createIndex|dropIndex)\s*\(")
       (lit "i");
     description :=
       lit "Schema modification operations should be restricted to " ++
       lit "administrative functions only";
     severity := medium;
     suggestion :=
       lit "Implement proper role-based access control for " ++
       lit "schema-modifying operations. Consider using migration " ++
       lit "scripts instead of runtime modifications.";
     example :=
       lit "db.createCollection(" ++ dq ++ lit "newCollection" ++ dq ++ lit ");";
     safeExample :=
       lit "// Use a migration framework or limit this operation to " ++
       lit "admin routes with proper authorization";
     docUrl :=
       lit "https://www.mongodb.com/docs/manual/core/security-operations/#security" |};
  {| id := lit "INSECURE_OPERATOR_USAGE";
     name := lit "Insecure Operator Usage";
     pattern := regexp 20
       (lit "\{\s*\$ne\s*:|" ++ dq ++ lit "\$ne" ++ dq ++ lit "\s*:|'\$ne'\s*:")
       (lit "i");
     description :=
       lit "Using $ne operator can lead to authentication bypass if not " ++
       lit "properly secured";
     severity := high;
     suggestion :=
       lit "Be cautious when using negation operators. Ensure proper " ++
       lit "authentication checks and input validation.";
     example :=
       lit "db.users.find({ username: username, password: { $ne: " ++ dq ++ dq ++
       lit " } });";
     safeExample :=
       lit "db.users.findOne({ username, password: hashedPassword });";
     docUrl :=
       lit "https://www.mongodb.com/docs/manual/reference/operator/query/ne/#security" |};
  {| id := lit "UNVALIDATED_ID";
     name := lit "Unvalidated MongoDB ObjectId";
     pattern := regexp 21
       (lit "(?<!isValid\()new\s+ObjectId\s*\(\s*.*?req\.(body|params|query)")
       (lit "i");
     description :=
       lit "Using unvalidated input as ObjectId can cause errors or " ++
       lit "unexpected behavior";
     severity := medium;
     suggestion :=
       lit "Validate that the input is a valid ObjectId format before " ++
       lit "creating a new ObjectId.";
     example :=
       lit "db.users.findOne({ _id: new ObjectId(req.params.id) });";
     safeExample :=
       lit "if (ObjectId.isValid(req.params.id)) {" ++ nl ++
       lit "  db.users.findOne({ _id: new ObjectId(req.params.id) });" ++ nl ++
       lit "}";
     docUrl :=
       lit "https://www.mongodb.com/docs/manual/reference/method/ObjectId/#security" |};
  {| id := lit "PROJECTION_INJECTION";
     name := lit "Projection Injection";
     pattern := regexp 22
       (lit "\.(find|findOne)\s*\(\s*.*?\s*,\s*req\.(body|params|query)")
       (lit "i");
     description :=
       lit "Using user input directly in the projection parameter can " ++
       lit "lead to information disclosure";
     severity := high;
     suggestion :=
       lit "Validate and sanitize projection fields. Only allow a " ++
       lit "whitelist of permitted fields.";
     example :=
       lit "db.users.find({}, req.query.fields);";
     safeExample :=
       lit "const allowedFields = [" ++ dq ++ lit "name" ++ dq ++ lit ", " ++ dq ++
       lit "email" ++ dq ++ lit ", " ++ dq ++ lit "createdAt" ++ dq ++ lit "];" ++
       nl ++ lit "const projection = {};" ++ nl ++
       lit "for (const field of allowedFields) {" ++ nl ++
       lit "  if (req.query.fields.includes(field)) projection[field] = " ++
       lit "1;" ++ nl ++ lit "}" ++ nl ++ lit "db.users.find({}, projection);";
     docUrl :=
       lit "https://www.mongodb.com/docs/manual/reference/operator/projection/positional/#security" |};
  {| id := lit "UNCONTROLLED_LIMIT";
     name := lit "Uncontrolled Query Limit";
     pattern := regexp 23
       (lit "\.limit\s*\(\s*req\.(body|params|query)")
       (lit "i");
     description :=
       lit "Using unvalidated user input for limit can lead to denial " ++
       lit "of service";
     severity := medium;
     suggestion :=
       lit "Apply reasonable upper and lower bounds to limit values " ++
       lit "from user input.";
     example :=
       lit "db.users.find({}).limit(req.query.limit);";
     safeExample :=
       lit "const limit = Math.min(Math.max(parseInt(req.query.limit) " ++
       lit "|| 10, 1), 100);" ++ nl ++ lit "db.users.find({}).limit(limit);";
     docUrl :=
       lit "https://www.mongodb.com/docs/manual/reference/method/db.collection.find/#security" |};
  {| id := lit "SORT_INJECTION";
     name := lit "Sort Injection";
     pattern := regexp 24
       (lit "\.sort\s*\(\s*req\.(body|params|query)")
       (lit "i");
     description :=
       lit "Using unvalidated sort parameters can lead to performance " ++
       lit "issues or DoS";
     severity := medium;
     suggestion :=
       lit "Validate sort fields and directions. Only allow sorting on " ++
       lit "indexed fields.";
     example :=
       lit "db.users.find({}).sort(req.query.sort);";
     safeExample :=
       lit "const allowedSortFields = [" ++ dq ++ lit "name" ++ dq ++ lit ", " ++
       dq ++ lit "createdAt" ++ dq ++ lit "];" ++ nl ++ lit "const sortField = " ++
       lit "allowedSortFields.includes(req.query.sortField) ? " ++
       lit "req.query.sortField : " ++ dq ++ lit "createdAt" ++ dq ++ lit ";" ++
       nl ++ lit "const sortDir = req.query.sortDir === " ++ dq ++ lit "desc" ++
       dq ++ lit " ? -1 : 1;" ++ nl ++
       lit "db.users.find({}).sort({ [sortField]: sortDir });";
     docUrl :=
       lit "https://www.mongodb.com/docs/manual/reference/method/db.collection.find/#security" |};
  {| id := lit "OBJECT_SPREAD_INJECTION";
     name := lit "Object Spread Injection";
     pattern := regexp 25
       (lit "\.(find|findOne|aggregate|update|delete)\s*\(\s*\{\s*.*?,?\s*\.\.\.(\w+).*?\}")
       (lit "i");
     description :=
       lit "Spreading objects directly into MongoDB queries can lead to " ++
       lit "query injection if the spread object is untrusted";
     severity := high;
     suggestion :=
       lit "Explicitly select only the required fields from the object " ++
       lit "instead of spreading the entire object into the query";
     example :=
       lit "db.collection.find({ field: value, ...userProvidedObject });";
     safeExample :=
       lit "const { safeField1, safeField2 } = userProvidedObject;" ++ nl ++
       lit "db.collection.find({ field: value, safeField1, safeField2 " ++
       lit "});";
     docUrl :=
       lit "https://www.mongodb.com/docs/manual/reference/operator/query/positional/#security" |};
  {| id := lit "DYNAMIC_OPERATOR_ASSIGNMENT";
     name := lit "Dynamic Operator Assignment";
     pattern := regexp 26
       (lit "\w+\s*=\s*\{\s*\$\w+:")
       (lit "i");
     description :=
       lit "Dynamically assigning MongoDB operators like $in, $gte, " ++
       lit "$lte to query fields can lead to operator injection attacks";
     severity := medium;
     suggestion :=
       lit "Validate both the operators and values before assigning " ++
       lit "them to query properties";
     example :=
       lit "query.field = { $in: userProvidedArray }; // Or query._id = " ++
       lit "{ $gte: someValue };";
     safeExample :=
       lit "if (Array.isArray(allowedValues) && allowedValues.every(v " ++
       lit "=> typeof v === 'string')) {" ++ nl ++
       lit "  query.field = { $in: allowedValues };" ++ nl ++ lit "}";
     docUrl :=
       lit "https://www.mongodb.com/docs/manual/reference/operator/query/positional/#security" |};
  {| id := lit "MONGOOSE_QUERY_EXEC_MISSING";
     name := lit "Mongoose Query Exec Missing";
     pattern := regexp 27
       (lit "\.(find|findOne|findById|update|delete|count)(?!\s*\(\s*\)|\s*\(\s*.*?\s*\)\s*\.(exec|then|catch)\b)")
       (lit "i");
     description :=
       lit "Not calling .exec() or not using a callback/Promise with " ++
       lit "Mongoose queries can lead to unexpected behavior";
     severity := low;
     suggestion :=
       lit "Always use .exec() or a callback/Promise with Mongoose " ++
       lit "queries to ensure proper error handling";
     example :=
       lit "const users = User.find({ active: true });";
     safeExample :=
       lit "const users = await User.find({ active: true }).exec();";
     docUrl :=
       lit "https://www.mongodb.com/docs/manual/reference/method/db.collection.find/#security" |};
  {| id := lit "UNHANDLED_PROMISE_REJECTION";
     name := lit "Unhandled Promise Rejection";
     pattern := regexp 28
       (lit "await\s+(\w+\.)*(find|findOne|findById|update|delete|aggregate|count).*?(?!\s*try\s*\{)")
       (lit "i");
     description :=
       lit "MongoDB operations without proper try/catch blocks can lead " ++
       lit "to unhandled promise rejections";
     severity := medium;
     suggestion :=
       lit "Always wrap MongoDB operations in try/catch blocks to " ++
       lit "handle errors properly";
     example :=
       lit "const users = await db.collection('users').find().toArray();";
     safeExample :=
       lit "try {" ++ nl ++ lit "  const users = await " ++
       lit "db.collection('users').find().toArray();" ++ nl ++
       lit "} catch (error) {" ++ nl ++ lit "  // Handle error" ++ nl ++ lit "}";
     docUrl :=
       lit "https://www.mongodb.com/docs/manual/core/transactions-in-applications/#error-handling" |};
  {| id := lit "UNESCAPED_REGEX_INPUT";
     name := lit "Unescaped Regex Input";
     pattern := regexp 29
       (lit "\{\s*['" ++ dq ++
        lit "a-zA-Z0-9_]+\s*:\s*\{\s*\$regex\s*:\s*(\w+)(?!\()")
       (lit "i");
     description :=
       lit "Using unescaped user input in $regex queries can lead to " ++
       lit "regex injection attacks";
     severity := high;
     suggestion :=
       lit "Escape special regex characters in user input before using " ++
       lit "in $regex queries";
     example :=
       lit "db.users.find({ username: { $regex: userInput } });";
     safeExample :=
       lit "const escapedInput = " ++
       lit "userInput.replace(/[.*+?^${}()|[\]\\]/g, '\\$&');" ++ nl ++
       lit "db.users.find({ username: { $regex: escapedInput } });";
     docUrl :=
       lit "https://www.mongodb.com/docs/manual/reference/operator/query/regex/#security" |};
  {| id := lit "SENSITIVE_FIELD_EXPOSURE";
     name := lit "Sensitive Field Exposure";
     pattern := regexp 30
       (lit "\.\s*find.*\{\s*\}\s*(?!.*\{\s*password\s*:\s*0|\s*passwordHash\s*:\s*0)")
       (lit "i");
     description :=
       lit "Querying without explicitly excluding sensitive fields can " ++
       lit "expose passwords and other confidential data";
     severity := high;
     suggestion :=
       lit "Always exclude sensitive fields like passwords or use " ++
       lit "explicit projection to include only necessary fields";
     example :=
       lit "db.users.find();";
     safeExample :=
       lit "db.users.find({}, { password: 0, passwordHash: 0 });" ++ nl ++
       lit "// Or better: db.users.find({}, { username: 1, email: 1 });";
     docUrl :=
       lit "https://www.mongodb.com/docs/manual/reference/method/db.collection.find/#security" |};
  {| id := lit "UNCONTROLLED_SKIP";
     name := lit "Uncontrolled Skip Value";
     pattern := regexp 31
       (lit "\.skip\s*\(\s*req\.(body|params|query)")
       (lit "i");
     description :=
       lit "Using unvalidated user input for skip can lead to " ++
       lit "performance issues or DoS";
     severity := medium;
     suggestion :=
       lit "Apply reasonable upper and lower bounds to skip values from " ++
       lit "user input";
     example :=
       lit "db.users.find().skip(req.query.skip);";
     safeExample :=
       lit "const skip = Math.min(Math.max(parseInt(req.query.skip) || " ++
       lit "0, 0), 1000);" ++ nl ++ lit "db.users.find().skip(skip);";
     docUrl :=
       lit "https://www.mongodb.com/docs/manual/reference/method/db.collection.find/#security" |};
  {| id := lit "SECRETS_IN_QUERY";
     name := lit "Secrets in Query";
     pattern := regexp 32
       (lit "(api[_-]?key|secret|password|token|auth[_-]?token|credential)[^\n]{1,30}(=|:)[^\n]{1,30}")
       (lit "i");
     description :=
       lit "Hardcoded secrets or credentials in database queries can " ++
       lit "lead to security breaches";
     severity := high;
     suggestion :=
       lit "Never hardcode secrets in queries. Use environment " ++
       lit "variables or secure secret management";
     example :=
       lit "db.users.find({ apiKey: 'sk_live_123456789abcdef' });";
     safeExample :=
       lit "db.users.find({ apiKey: process.env.API_KEY });";
     docUrl :=
       lit "https://www.mongodb.com/docs/manual/core/security-input-validation/" |};
  {| id := lit "DANGEROUS_PROJECTION";
     name := lit "Dangerous Projection Operators";
     pattern := regexp 33
       (lit "\$\s*:\s*(\{|\[|\$)")
       (lit "i");
     description :=
       lit "Using the $ projection operator with untrusted input can " ++
       lit "lead to data exposure";
     severity := high;
     suggestion :=
       lit "Avoid using the $ operator in projections with user input";
     example :=
       lit "db.users.find({}, { $: userInput });";
     safeExample :=
       lit "// Use explicit field projections instead";
     docUrl :=
       lit "https://www.mongodb.com/docs/manual/reference/operator/projection/positional/#security" |};
  {| id := lit "UNVALIDATED_UPDATE_OPERATORS";
     name := lit "Unvalidated Update Operators";
     pattern := regexp 34
       (lit "\.\s*(update|updateOne|updateMany|findOneAndUpdate)\s*\(\s*.*?,\s*\{\s*\$\w+\s*:")
       (lit "i");
     description :=
       lit "Using update operators like $set, $unset, $inc without " ++
       lit "validation can allow field manipulation attacks";
     severity := high;
     suggestion :=
       lit "Validate update operators and fields before executing " ++
       lit "update operations";
     example :=
       lit "db.users.updateOne({ _id }, req.body);";
     safeExample :=
       lit "const allowedFields = ['name', 'email'];" ++ nl ++
       lit "const update = {};" ++ nl ++
       lit "for (const [key, value] of Object.entries(req.body)) {" ++ nl ++
       lit "  if (allowedFields.includes(key)) update[key] = value;" ++ nl ++
       lit "}" ++ nl ++ lit "db.users.updateOne({ _id }, { $set: update });";
     docUrl :=
       lit "https://www.mongodb.com/docs/manual/core/security-input-validation/" |}
].

(** ** The scan engine of [src/utils/scanner.ts] *)

(** [Array.prototype.forEach]: the callback receives the element and its
    index; the state that the callback mutates is threaded through. *)
Fixpoint forEach_from {A St : Type} (callback : A → nat → St → St)
    (index : nat) (arr : list A) (st : St) : St :=
  match arr with
  | [] => st
  | a :: arr' => forEach_from callback (S index) arr' (callback a index st)
  end.

Definition forEach {A St : Type} (callback : A → nat → St → St)
    (arr : list A) (st : St) : St :=
  forEach_from callback O arr st.

(** [detections.push(d)]. *)
Definition push (detections : list Detection) (d : Detection)
    : list Detection :=
  detections ++ [d].

(** The state of a scan: the [detections] array and the [lastIndex] store
    of the RegExp objects. *)
Abbreviation scan_state := (list Detection * store)%type (only parsing).

Module Earlier.

(** The earlier version, lines 6 to 27. *)
Definition scanForUnsafePatterns (content : jsstring)
    (patterns : list UnsafePattern) (σ : store) : scan_state :=
  let detections : list Detection := [] in
  let lines := split 10 content in
  forEach (λ line index,
    forEach (λ pattern' _ '(detections, σ),
      let '(found, σ) := test (pattern pattern') line σ in
      if found then
        (push detections
           {| Detection.pattern := pattern';
              Detection.lineNumber := index + 1;
              Detection.matchedText := trim line |}, σ)
      else (detections, σ)) patterns) lines (detections, σ).

End Earlier.

(** The guard of the later version: [filePath] is given, is not empty and
    contains the name of the patterns file. *)
Definition isPatternsFile (filePath : option jsstring) : bool :=
  match filePath with
  | None => false
  | Some path =>
      negb (bool_decide (path = [])) &&
      (includes path (lit "unsafe-queries.ts") ||
       includes path (lit "unsafe-queries.js"))
  end.

(** The later version, lines 49 to 80. *)
Definition scanForUnsafePatterns (content : jsstring)
    (patterns : list UnsafePattern) (filePath : option jsstring)
    (σ : store) : scan_state :=
  if isPatternsFile filePath then ([], σ)
  else
    let detections : list Detection := [] in
    let lines := split 10 content in
    forEach (λ line index,
      forEach (λ pattern' _ '(detections, σ),
        let '(found, σ) := test (pattern pattern') line σ in
        if found then
          (push detections
             {| Detection.pattern := pattern';
                Detection.lineNumber := index + 1;
                Detection.matchedText := trim line |}, σ)
        else (detections, σ)) patterns) lines (detections, σ).

(** [getSeverityColor], lines 85 to 96; the earlier copy, lines 32 to 43, is
    the same text. *)
Definition getSeverityColor (severity : jsstring) : jsstring :=
  if bool_decide (severity = lit "high") then lit "#FF4D4F"
  else if bool_decide (severity = lit "medium") then lit "#FAAD14"
  else if bool_decide (severity = lit "low") then lit "#52C41A"
  else lit "#1890FF".

(** * Notions used in the proofs *)

(** ** The matcher *)

Section Reach.
Variable Input : jsstring.

(** The end indices a matcher can hand to its continuation: it moves
    only over code units of the input. *)
Definition reach (dir : direction) (x y : nat) : Prop :=
  match dir with
  | Forward => (x ≤ y)%nat ∧ ((y ≤ length Input)%nat ∨ y = x)
  | Backward => (y ≤ x)%nat ∧ ((x ≤ length Input)%nat ∨ y = x)
  end.

(** The code units left in front of a matcher. *)
Definition dist (dir : direction) (x : nat) : nat :=
  match dir with
  | Forward => (length Input - x)%nat
  | Backward => x `min` length Input
  end.

(** A matcher consults its continuation only at reachable indices. *)
Definition local (m : Matcher) (dir : direction) : Prop :=
  ∀ x c c', (∀ y, reach dir x y → c y = c' y) → m x c = m x c'.

End Reach.

(** The continuation [d] of RepeatMatcher. *)
Definition repeat_d (fuel : nat) (m : Matcher) (min : nat)
    (max : option nat) (greedy : bool) (x : nat) (c : Continuation)
    : Continuation :=
  λ y, if bool_decide (min = O) && bool_decide (y = x) then None
       else RepeatMatcher fuel m (pred min) (pred <$> max) greedy y c.

(** ** Strings *)

(** [Array.prototype.join], the inverse of [split]. *)
Fixpoint join (sep : N) (pieces : list jsstring) : jsstring :=
  match pieces with
  | [] => []
  | [piece] => piece
  | piece :: pieces' => piece ++ sep :: join sep pieces'
  end.

(** ** The scan *)

(** A RegExp without the flags [g] and [y]. *)
Definition stateless (R : RegExp) : Prop :=
  global R = false ∧ sticky R = false.

(** The Detection that the inner callback pushes. *)
Definition mkDetection (line : jsstring) (index : nat) (p : UnsafePattern)
    : Detection :=
  {| Detection.pattern := p;
     Detection.lineNumber := index + 1;
     Detection.matchedText := trim line |}.

(** The inner callback, for one pattern. *)
Definition onPattern (line : jsstring) (index : nat)
    : UnsafePattern → nat → scan_state → scan_state :=
  λ pattern' _ '(detections, σ),
    let '(found, σ) := test (pattern pattern') line σ in
    if found then (push detections (mkDetection line index pattern'), σ)
    else (detections, σ).

(** The outer callback, for one line. *)
Definition onLine (patterns : list UnsafePattern)
    : jsstring → nat → scan_state → scan_state :=
  λ line index, forEach (onPattern line index) patterns.

(** What every Detection of a scan of [lines] satisfies. *)
Definition line_faithful (lines : list jsstring) (d : Detection) : Prop :=
  (1 ≤ Detection.lineNumber d ≤ length lines)%nat ∧
  ∃ line, lines !! (Detection.lineNumber d - 1)%nat = Some line ∧
          Detection.matchedText d = trim line.

(** Does the rule match the line?  (For a stateless RegExp the store does
    not matter, see [test_stateless].) *)
Definition hit (p : UnsafePattern) (line : jsstring) : bool :=
  (test (pattern p) line ∅).1.

(** The Detections of the lines from [index] on. *)
Fixpoint hits (patterns : list UnsafePattern) (index : nat)
    (lines : list jsstring) : list Detection :=
  match lines with
  | [] => []
  | line :: lines' =>
      (mkDetection line index <$> filter (λ p, hit p line) patterns) ++
      hits patterns (S index) lines'
  end.

(** The order of the output: by line number, then by position in the rule
    set. *)
Definition before (patterns : list UnsafePattern) (a b : Detection) : Prop :=
  (Detection.lineNumber a < Detection.lineNumber b)%nat ∨
  (Detection.lineNumber a = Detection.lineNumber b ∧
   ∃ ka kb, patterns !! ka = Some (Detection.pattern a) ∧
            patterns !! kb = Some (Detection.pattern b) ∧ (ka < kb)%nat).

(** ** The inputs of the scenarios *)

(** [db.users.find({ active: true, role: "user" });] *)
Definition safe_line : jsstring :=
  lit "db.users.find({ active: true, role: " ++ dq ++ lit "user" ++ dq ++
  lit " });".

(** [db.users.find({ $where: "this.username === '" + username + "'" });] *)
Definition where_line : jsstring :=
  lit "db.users.find({ $where: " ++ dq ++ lit "this.username === '" ++ dq ++
  lit " + username + " ++ dq ++ lit "'" ++ dq ++ lit " });".

(** The two lines, one after the other. *)
Definition two_lines : jsstring := where_line ++ nl ++ safe_line.

(** A rule whose RegExp carries the flag [g], to show what the store is
    for: the second of two scans of the same text finds nothing, because
    the first left [lastIndex] at the end of its match. *)
Definition global_rule : UnsafePattern :=
  {| id := lit "GLOBAL_FIND"; name := lit "find, global";
     pattern := regexp 0 (lit "find") (lit "g");
     description := []; severity := low; suggestion := [];
     example := []; safeExample := []; docUrl := [] |}.

(** A rule whose RegExp matches the empty string. *)
Definition star_rule : UnsafePattern :=
  {| id := lit "STAR"; name := lit "x, any number of times";
     pattern := regexp 0 (lit "x*") (lit "");
     description := []; severity := low; suggestion := [];
     example := []; safeExample := []; docUrl := [] |}.

(** ** More notions about the scan *)

(** A Detection moved down by [n] lines. *)
Definition shiftLines (n : nat) (d : Detection) : Detection :=
  {| Detection.pattern := Detection.pattern d;
     Detection.lineNumber := Detection.lineNumber d + n;
     Detection.matchedText := Detection.matchedText d |}.

(** Every pair of a line and a rule, in the order of the two loops. *)
Fixpoint candidates (patterns : list UnsafePattern) (index : nat)
    (lines : list jsstring) : list Detection :=
  match lines with
  | [] => []
  | line :: lines' =>
      (mkDetection line index <$> patterns) ++
      candidates patterns (S index) lines'
  end.

(** Two code units that differ at most in the case of an ASCII letter. *)
Definition caseEq (a b : N) : Prop :=
  Canonicalize true a = Canonicalize true b.

(** What a Detection reports: the line number and the rule. *)
Definition report (d : Detection) : nat * UnsafePattern :=
  (Detection.lineNumber d, Detection.pattern d).

(** ** The editor integration of [src/extension.ts]

    The objects of the editor API are records of the members that the
    code reads or writes.  A function that can throw returns an [option],
    [None] standing for the exception. *)

Module vscode.

(** [vscode.DiagnosticSeverity]. *)
Inductive DiagnosticSeverity := Error | Warning | Information | Hint.

(** [vscode.Range]: start line, start character, end line, end
    character. *)
Record Range := {
  startLine : Z;
  startCharacter : Z;
  endLine : Z;
  endCharacter : Z;
}.

(** [vscode.TextDocument]: the members the extension reads.  [textLines]
    is the line table behind [lineAt]; [uri] is kept as its string. *)
Record TextDocument := {
  fileName : jsstring;
  uri : jsstring;
  languageId : jsstring;
  getText : jsstring;
  textLines : list jsstring;
}.

(** [document.lineAt(line)]: the text of the line; it throws when the line
    number is not one of the document. *)
Definition lineAt (document : TextDocument) (line : Z) : option jsstring :=
  if (line <? 0)%Z then None else textLines document !! Z.to_nat line.

(** [vscode.DiagnosticRelatedInformation] over a [vscode.Location]. *)
Record DiagnosticRelatedInformation := {
  locationUri : jsstring;
  locationRange : Range;
  relatedMessage : jsstring;
}.

End vscode.

Module Diagnostic.
(** [vscode.Diagnostic], with the [detection] that [updateDiagnostics]
    attaches to it; [codeTarget] is the string given to [Uri.parse]. *)
Record t := mk {
  range : vscode.Range;
  message : jsstring;
  severity : vscode.DiagnosticSeverity;
  codeValue : jsstring;
  codeTarget : jsstring;
  source : jsstring;
  relatedInformation : list vscode.DiagnosticRelatedInformation;
  detection : option Detection;
}.
End Diagnostic.

Abbreviation Diagnostic := Diagnostic.t.

(** A [vscode.CodeAction] with its command. *)
Record CodeAction := {
  actionTitle : jsstring;
  actionKind : jsstring;
  commandName : jsstring;
  commandTitle : jsstring;
  commandArguments : list Detection;
}.

(** The module state of the extension: the diagnostic collection, by uri;
    the code-action providers registered so far, each by the languages of
    its selector; and the [lastIndex] store of the RegExp objects. *)
Record ExtensionState := {
  diagnosticCollection : gmap jsstring (list Diagnostic);
  codeActionProviders : list (list jsstring);
  regexps : gmap nat nat;
}.

(** [getSeverityFromString], lines 315 to 326. *)
Definition getSeverityFromString (severity : jsstring)
    : vscode.DiagnosticSeverity :=
  if bool_decide (severity = lit "high") then vscode.Error
  else if bool_decide (severity = lit "medium") then vscode.Warning
  else if bool_decide (severity = lit "low") then vscode.Information
  else vscode.Hint.

(** [getSeverityIcon], lines 331 to 342.  The icons are the code units of
    the string literals as the source file has them. *)
Definition getSeverityIcon (severity : jsstring) : jsstring :=
  if bool_decide (severity = lit "high") then [240; 376; 8250; 8216]
  else if bool_decide (severity = lit "medium") then [226; 353; 160; 239; 184]
  else if bool_decide (severity = lit "low") then [226; 8222; 185; 239; 184]
  else [226; 8364; 162].

(** [forEach] with a callback that can throw: the exception ends the
    loop. *)
Fixpoint forEach_throw {A St : Type} (callback : A → St → option St)
    (arr : list A) (st : St) : option St :=
  match arr with
  | [] => Some st
  | a :: arr' =>
      match callback a st with
      | None => None
      | Some st' => forEach_throw callback arr' st'
      end
  end.

(** The Diagnostic that the callback of [updateDiagnostics] builds, lines
    122 to 159, when [Uri.parse] accepts the documentation address;
    [Runtime.toDiagnostic] has the exception of [Uri.parse]. *)
Definition toDiagnostic (document : vscode.TextDocument)
    (detection : Detection) : option Diagnostic :=
  line ← vscode.lineAt document (Z.of_nat (Detection.lineNumber detection) - 1);
  let range :=
    {| vscode.startLine := Z.of_nat (Detection.lineNumber detection) - 1;
       vscode.startCharacter := 0;
       vscode.endLine := Z.of_nat (Detection.lineNumber detection) - 1;
       vscode.endCharacter := Z.of_nat (length line) |} in
  let pattern' := Detection.pattern detection in
  let severity' := getSeverityFromString (Severity_string (severity pattern')) in
  let severityIcon := getSeverityIcon (Severity_string (severity pattern')) in
  Some
    {| Diagnostic.range := range;
       Diagnostic.message :=
         severityIcon ++ lit " " ++ name pattern' ++ lit ": " ++
         description pattern';
       Diagnostic.severity := severity';
       Diagnostic.codeValue := id pattern';
       Diagnostic.codeTarget := docUrl pattern';
       Diagnostic.source := lit "SafeMongo";
       Diagnostic.relatedInformation :=
         [ {| vscode.locationUri := vscode.uri document;
              vscode.locationRange := range;
              vscode.relatedMessage :=
                lit "Suggestion: " ++ suggestion pattern' |};
           {| vscode.locationUri := vscode.uri document;
              vscode.locationRange := range;
              vscode.relatedMessage :=
                lit "Documentation: " ++ docUrl pattern' |} ];
       Diagnostic.detection := Some detection |}.

(** [updateDiagnostics], lines 107 to 187.  (The test of line 166, whether
    [registerCodeActionsProvider] exists, is always passed: the function
    is part of the editor API.) *)
Definition updateDiagnostics (document : vscode.TextDocument)
    (detections : list Detection) (st : ExtensionState)
    : option ExtensionState :=
  if includes (vscode.fileName document) (lit "unsafe-queries.ts") ||
     includes (vscode.fileName document) (lit "unsafe-queries.js")
  then
    Some {| diagnosticCollection :=
              <[vscode.uri document := []]> (diagnosticCollection st);
            codeActionProviders := codeActionProviders st;
            regexps := regexps st |}
  else
    diagnostics ←
      forEach_throw (λ detection diagnostics,
        diagnostic ← toDiagnostic document detection;
        Some (diagnostics ++ [diagnostic])) detections [];
    Some {| diagnosticCollection :=
              <[vscode.uri document := diagnostics]> (diagnosticCollection st);
            codeActionProviders :=
              codeActionProviders st ++
              [[lit "javascript"]; [lit "typescript"]];
            regexps := regexps st |}.

(** [scanCurrentFile], lines 81 to 101, for the document of the editor. *)
Definition scanCurrentFile (document : vscode.TextDocument)
    (st : ExtensionState) : option ExtensionState :=
  if negb (bool_decide (vscode.languageId document = lit "javascript")) &&
     negb (bool_decide (vscode.languageId document = lit "typescript")) &&
     negb (bool_decide (vscode.languageId document = lit "javascriptreact")) &&
     negb (bool_decide (vscode.languageId document = lit "typescriptreact"))
  then Some st
  else
    let text := vscode.getText document in
    let '(detections, σ) :=
      scanForUnsafePatterns text unsafePatterns
        (Some (vscode.fileName document)) (regexps st) in
    updateDiagnostics document detections
      {| diagnosticCollection := diagnosticCollection st;
         codeActionProviders := codeActionProviders st;
         regexps := σ |}.

(** [MongoSafeCodeActionProvider.provideCodeActions], lines 348 to 380;
    [diagnostics] is [context.diagnostics]. *)
Definition provideCodeActions (document : vscode.TextDocument)
    (range : vscode.Range) (diagnostics : list Diagnostic)
    : list CodeAction :=
  forEach (λ diagnostic _ actions,
    if negb (bool_decide (Diagnostic.source diagnostic = lit "SafeMongo"))
    then actions
    else
      match Diagnostic.detection diagnostic with
      | None => actions
      | Some detection =>
          actions ++
          [ {| actionTitle :=
                 lit "Show details about this MongoDB security issue";
               actionKind := lit "quickfix";
               commandName := lit "safemongo.showVulnerabilityDetails";
               commandTitle := lit "Show Vulnerability Details";
               commandArguments := [detection] |} ]
      end) diagnostics [].

(** [scanCurrentFile], [n] times in a row on the same document. *)
Fixpoint scanTimes (n : nat) (document : vscode.TextDocument)
    (st : ExtensionState) : option ExtensionState :=
  match n with
  | O => Some st
  | S n' => st' ← scanCurrentFile document st; scanTimes n' document st'
  end.

(** ** Notions about the editor integration *)

(** The file name contains the name of the patterns file. *)
Definition isPatternsDocument (document : vscode.TextDocument) : bool :=
  includes (vscode.fileName document) (lit "unsafe-queries.ts") ||
  includes (vscode.fileName document) (lit "unsafe-queries.js").

(** The language is one of the four that [scanCurrentFile] scans. *)
Definition isScannedLanguage (document : vscode.TextDocument) : bool :=
  bool_decide (vscode.languageId document = lit "javascript") ||
  bool_decide (vscode.languageId document = lit "typescript") ||
  bool_decide (vscode.languageId document = lit "javascriptreact") ||
  bool_decide (vscode.languageId document = lit "typescriptreact").

(** The line number of the Detection is a line of the document. *)
Definition onDocument (document : vscode.TextDocument) (d : Detection)
    : Prop :=
  (1 ≤ Detection.lineNumber d ≤ length (vscode.textLines document))%nat.

(** What a Diagnostic built for a Detection shows of it. *)
Definition shows (document : vscode.TextDocument) (d : Detection)
    (diagnostic : Diagnostic) : Prop :=
  Diagnostic.detection diagnostic = Some d ∧
  Diagnostic.source diagnostic = lit "SafeMongo" ∧
  Diagnostic.codeValue diagnostic = id (Detection.pattern d) ∧
  Diagnostic.codeTarget diagnostic = docUrl (Detection.pattern d) ∧
  Diagnostic.severity diagnostic =
    getSeverityFromString (Severity_string (severity (Detection.pattern d))) ∧
  ∃ line,
    vscode.textLines document !! (Detection.lineNumber d - 1)%nat = Some line ∧
    Diagnostic.range diagnostic =
      {| vscode.startLine := Z.of_nat (Detection.lineNumber d - 1);
         vscode.startCharacter := 0;
         vscode.endLine := Z.of_nat (Detection.lineNumber d - 1);
         vscode.endCharacter := Z.of_nat (length line) |}.

(** The code action that [provideCodeActions] pushes for a Detection. *)
Definition showDetailsAction (detection : Detection) : CodeAction :=
  {| actionTitle := lit "Show details about this MongoDB security issue";
     actionKind := lit "quickfix";
     commandName := lit "safemongo.showVulnerabilityDetails";
     commandTitle := lit "Show Vulnerability Details";
     commandArguments := [detection] |}.

(** The Detection for which [provideCodeActions] offers an action, if
    any. *)
Definition actionable (diagnostic : Diagnostic) : option Detection :=
  if bool_decide (Diagnostic.source diagnostic = lit "SafeMongo")
  then Diagnostic.detection diagnostic
  else None.

(** A TypeScript document of two lines, and a state with nothing in it. *)
Definition demo_document : vscode.TextDocument :=
  {| vscode.fileName := lit "/src/routes/users.ts";
     vscode.uri := lit "file:///src/routes/users.ts";
     vscode.languageId := lit "typescript";
     vscode.getText := two_lines;
     vscode.textLines := [where_line; safe_line] |}.

Definition empty_state : ExtensionState :=
  {| diagnosticCollection := ∅; codeActionProviders := []; regexps := ∅ |}.

(** The patterns file, open in the editor. *)
Definition patterns_document : vscode.TextDocument :=
  {| vscode.fileName := lit "/src/patterns/unsafe-queries.ts";
     vscode.uri := lit "file:///src/patterns/unsafe-queries.ts";
     vscode.languageId := lit "typescript";
     vscode.getText := two_lines;
     vscode.textLines := [] |}.

(** [vscode.WebviewPanel]: what [showVulnerabilityDetails] sets. *)
Record WebviewPanel := {
  viewType : jsstring;
  panelTitle : jsstring;
  enableScripts : bool;
  retainContextWhenHidden : bool;
  html : jsstring;
}.

(** The template literal of lines 210 to 305: its strings and its
    substitutions, in order. *)
Definition detailsTemplate (detection : Detection) : list jsstring :=
  let pattern' := Detection.pattern detection in
  let severityColor :=
    getSeverityColor (Severity_string (severity pattern')) in
  [ (nl ++ lit "    <!DOCTYPE html>" ++ nl ++ lit "    <html lang=" ++ dq ++
     lit "en" ++ dq ++ lit ">" ++ nl ++ lit "    <head>" ++ nl ++
     lit "      <meta charset=" ++ dq ++ lit "UTF-8" ++ dq ++ lit ">" ++ nl ++
     lit "      <meta name=" ++ dq ++ lit "viewport" ++ dq ++ lit " content=" ++
     dq ++ lit "width=device-width, initial-scale=1.0" ++ dq ++ lit ">" ++ nl ++
     lit "      <title>MongoDB Security Issue</title>" ++ nl ++
     lit "      <style>" ++ nl ++ lit "        body {" ++ nl ++
     lit "          font-family: -apple-system, BlinkMacSystemFont, " ++
     lit "'Segoe UI', Roboto, Oxygen, Ubuntu, Cantarell, 'Open Sans', " ++
     lit "'Helvetica Neue', sans-serif;" ++ nl ++
     lit "          padding: 20px;" ++ nl ++
     lit "          line-height: 1.5;" ++ nl ++ lit "        }" ++ nl ++
     lit "        h1 {" ++ nl ++
     lit "          border-bottom: 1px solid #eee;" ++ nl ++
     lit "          padding-bottom: 10px;" ++ nl ++
     lit "          font-size: 24px;" ++ nl ++ lit "        }" ++ nl ++
     lit "        h2 {" ++ nl ++ lit "          font-size: 18px;" ++ nl ++
     lit "          margin-top: 20px;" ++ nl ++ lit "        }" ++ nl ++
     lit "        .severity {" ++ nl ++
     lit "          display: inline-block;" ++ nl ++
     lit "          padding: 3px 8px;" ++ nl ++
     lit "          border-radius: 4px;" ++ nl ++
     lit "          font-size: 12px;" ++ nl ++
     lit "          font-weight: bold;" ++ nl ++
     lit "          color: white;" ++ nl ++
     lit "          background-color: ");
    severityColor;
    (lit ";" ++ nl ++ lit "          margin-left: 10px;" ++ nl ++
     lit "          text-transform: uppercase;" ++ nl ++ lit "        }" ++
     nl ++ lit "        pre {" ++ nl ++
     lit "          background-color: #f5f5f5;" ++ nl ++
     lit "          padding: 10px;" ++ nl ++
     lit "          border-radius: 4px;" ++ nl ++
     lit "          overflow-x: auto;" ++ nl ++ lit "        }" ++ nl ++
     lit "        .bad-example {" ++ nl ++
     lit "          border-left: 4px solid #FF4D4F;" ++ nl ++ lit "        }" ++
     nl ++ lit "        .good-example {" ++ nl ++
     lit "          border-left: 4px solid #52C41A;" ++ nl ++ lit "        }" ++
     nl ++ lit "        .description {" ++ nl ++
     lit "          margin-bottom: 20px;" ++ nl ++ lit "        }" ++ nl ++
     lit "        .doc-link {" ++ nl ++ lit "          display: block;" ++ nl ++
     lit "          margin-top: 20px;" ++ nl ++
     lit "          padding: 10px;" ++ nl ++
     lit "          background-color: #f0f7ff;" ++ nl ++
     lit "          border-radius: 4px;" ++ nl ++
     lit "          text-decoration: none;" ++ nl ++
     lit "          color: #1890ff;" ++ nl ++
     lit "          border: 1px solid #d9e8ff;" ++ nl ++ lit "        }" ++
     nl ++ lit "        .doc-link:hover {" ++ nl ++
     lit "          background-color: #e6f4ff;" ++ nl ++ lit "        }" ++
     nl ++ lit "      </style>" ++ nl ++ lit "    </head>" ++ nl ++
     lit "    <body>" ++ nl ++ lit "      <h1>");
    name pattern';
    (lit " <span class=" ++ dq ++ lit "severity" ++ dq ++ lit ">");
    Severity_string (severity pattern');
    (lit "</span></h1>" ++ nl ++ lit "      " ++ nl ++
     lit "      <div class=" ++ dq ++ lit "description" ++ dq ++ lit ">" ++
     nl ++ lit "        <p>");
    description pattern';
    (lit "</p>" ++ nl ++ lit "      </div>" ++ nl ++ lit "      " ++ nl ++
     lit "      <h2>Line Found</h2>" ++ nl ++ lit "      <pre class=" ++ dq ++
     lit "bad-example" ++ dq ++ lit ">");
    Detection.matchedText detection;
    (lit "</pre>" ++ nl ++ lit "      " ++ nl ++
     lit "      <h2>Suggestion</h2>" ++ nl ++ lit "      <p>");
    suggestion pattern';
    (lit "</p>" ++ nl ++ lit "      " ++ nl ++
     lit "      <h2>Vulnerable Example</h2>" ++ nl ++ lit "      <pre class=" ++
     dq ++ lit "bad-example" ++ dq ++ lit ">");
    example pattern';
    (lit "</pre>" ++ nl ++ lit "      " ++ nl ++
     lit "      <h2>Safe Example</h2>" ++ nl ++ lit "      <pre class=" ++ dq ++
     lit "good-example" ++ dq ++ lit ">");
    safeExample pattern';
    (lit "</pre>" ++ nl ++ nl ++ lit "      <a href=" ++ dq);
    docUrl pattern';
    (dq ++ lit " class=" ++ dq ++ lit "doc-link" ++ dq ++ lit " target=" ++
     dq ++ lit "_blank" ++ dq ++ lit ">" ++ nl ++ lit "        <svg xmlns=" ++
     dq ++ lit "http://www.w3.org/2000/svg" ++ dq ++ lit " width=" ++ dq ++
     lit "16" ++ dq ++ lit " height=" ++ dq ++ lit "16" ++ dq ++
     lit " viewBox=" ++ dq ++ lit "0 0 24 24" ++ dq ++ lit " fill=" ++ dq ++
     lit "none" ++ dq ++ lit " stroke=" ++ dq ++ lit "currentColor" ++ dq ++
     lit " stroke-width=" ++ dq ++ lit "2" ++ dq ++ lit " stroke-linecap=" ++
     dq ++ lit "round" ++ dq ++ lit " stroke-linejoin=" ++ dq ++ lit "round" ++
     dq ++ lit " style=" ++ dq ++
     lit "vertical-align: sub; margin-right: 5px;" ++ dq ++ lit ">" ++ nl ++
     lit "          <path d=" ++ dq ++
     lit "M18 13v6a2 2 0 0 1-2 2H5a2 2 0 0 1-2-2V8a2 2 0 0 1 2-2h6" ++ dq ++
     lit "></path>" ++ nl ++ lit "          <polyline points=" ++ dq ++
     lit "15 3 21 3 21 9" ++ dq ++ lit "></polyline>" ++ nl ++
     lit "          <line x1=" ++ dq ++ lit "10" ++ dq ++ lit " y1=" ++ dq ++
     lit "14" ++ dq ++ lit " x2=" ++ dq ++ lit "21" ++ dq ++ lit " y2=" ++ dq ++
     lit "3" ++ dq ++ lit "></line>" ++ nl ++ lit "        </svg>" ++ nl ++
     lit "        MongoDB Documentation Reference" ++ nl ++ lit "      </a>" ++
     nl ++ lit "    </body>" ++ nl ++ lit "    </html>" ++ nl ++ lit "  ") ].

(** [showVulnerabilityDetails], lines 192 to 310: the panel that was
    current is disposed of, if there is one, and a new panel becomes the
    current one.  The result is the panels disposed of and the new current
    panel. *)
Definition showVulnerabilityDetails (detection : Detection)
    (currentPanel : option WebviewPanel)
    : list WebviewPanel * WebviewPanel :=
  let disposed :=
    match currentPanel with
    | Some panel => [panel]
    | None => []
    end in
  (disposed,
   {| viewType := lit "mongoSecurityDetails";
      panelTitle :=
        lit "MongoDB Security: " ++ name (Detection.pattern detection);
      enableScripts := true;
      retainContextWhenHidden := true;
      html := concat (detailsTemplate detection) |}).

(** Severities can be compared. *)
Global Instance Severity_eq_dec : EqDecision Severity.
Proof. solve_decision. Defined.

(** ** The runtime: abrupt completions

    ECMA-262 gives [RegExp.prototype.test] on a RegExp object no abrupt
    completion, and [test] above is that semantics.  An engine runs the
    backtracking matcher on a stack of bounded size and throws a
    [RangeError] when a match needs more; the editor's [Uri.parse] throws
    on a string that is not a URI.  Neither bound is in the source: the
    capacity of the stack and the strings that [Uri.parse] accepts are
    parameters.  What an engine keeps on its stack is the engine's own
    matter (it may run a loop over single code units in place); the model
    charges one entry for every pending alternative of a disjunction or
    of a quantifier, which is what a group repeated by [*], such as the
    [(\w+\.)*] of the catalog, costs a backtracking engine for every
    iteration.  A function of this module returns an [option], [None]
    standing for the exception; the source catches none. *)

Module Runtime.

(** What a matcher run on the engine gives: the end index of a match, a
    failure, or the exhaustion of the backtracking stack. *)
Inductive Outcome := matched (e : nat) | failure | RangeError.

(** A continuation and a matcher also take the number of alternatives
    that are pending, the depth of the backtracking stack. *)
Definition Continuation := nat → nat → Outcome.
Definition Matcher := nat → nat → Continuation → Outcome.

Section Engine.
Variable capacity : nat.

(** A choice between two alternatives: the second is pushed on the stack
    while the first runs, and is popped when the first fails.  The unit of
    [capacity] is one pending alternative. *)
Definition orElse (d : nat) (first : nat → Outcome) (second : Outcome)
    : Outcome :=
  if bool_decide (capacity ≤ d)%nat then RangeError
  else match first (S d) with
       | failure => second
       | o => o
       end.

Variable Input : jsstring.
Variable ignoreCase : bool.

Definition CharacterSetMatcher (A : N → bool) (invert : bool)
    (dir : direction) : Matcher :=
  λ x d c,
    match dir with
    | Forward =>
        match Input !! x with
        | None => failure
        | Some chr =>
            if xorb invert (A (Canonicalize ignoreCase chr)) then c (S x) d
            else failure
        end
    | Backward =>
        match x with
        | O => failure
        | S x' =>
            match Input !! x' with
            | None => failure
            | Some chr =>
                if xorb invert (A (Canonicalize ignoreCase chr)) then c x' d
                else failure
            end
        end
    end.

(** RepeatMatcher: an iteration that may be left out is a choice. *)
Fixpoint RepeatMatcher (fuel : nat) (m : Matcher) (min : nat)
    (max : option nat) (greedy : bool) (x d : nat) (c : Continuation)
    : Outcome :=
  if bool_decide (max = Some O) then c x d else
  match fuel with
  | O => failure
  | S fuel' =>
      let d' : Continuation := λ y dy,
        if bool_decide (min = O) && bool_decide (y = x) then failure
        else RepeatMatcher fuel' m (pred min) (pred <$> max) greedy y dy c in
      if negb (bool_decide (min = O)) then m x d d'
      else if greedy then orElse d (λ dy, m x dy d') (c x d)
      else orElse d (c x) (m x d d')
  end.

Fixpoint CompileSubpattern (r : regex) (dir : direction) : Matcher :=
  match r with
  | REmpty => λ x d c, c x d
  | Dot => CharacterSetMatcher (λ cc, negb (isLineTerminator cc)) false dir
  | CharClass invert atoms =>
      CharacterSetMatcher (class_mem ignoreCase atoms) invert dir
  | Seq r1 r2 =>
      let m1 := CompileSubpattern r1 dir in
      let m2 := CompileSubpattern r2 dir in
      match dir with
      | Forward => λ x d c, m1 x d (λ y dy, m2 y dy c)
      | Backward => λ x d c, m2 x d (λ y dy, m1 y dy c)
      end
  | Disjunction r1 r2 =>
      let m1 := CompileSubpattern r1 dir in
      let m2 := CompileSubpattern r2 dir in
      λ x d c, orElse d (λ dy, m1 x dy c) (m2 x d c)
  | Quantified r min max greedy =>
      let m := CompileSubpattern r dir in
      λ x d c, RepeatMatcher (repeat_fuel Input O min) m min max greedy x d c
  | Group r => CompileSubpattern r dir
  | AssertStart => λ x d c, if bool_decide (x = O) then c x d else failure
  | AssertEnd =>
      λ x d c, if bool_decide (x = length Input) then c x d else failure
  | WordBoundary negated =>
      λ x d c,
        let a := IsWordCharBefore Input x in
        let b := IsWordCharAt Input x in
        if xorb negated (xorb a b) then c x d else failure
  | Lookaround dir' negated r =>
      let m := CompileSubpattern r dir' in
      λ x d c,
        match m x d (λ y _, matched y) with
        | matched _ => if negated then failure else c x d
        | failure => if negated then c x d else failure
        | RangeError => RangeError
        end
  end.

(** CompilePattern: a match attempt starts with an empty stack. *)
Definition CompilePattern (r : regex) (index : nat) : Outcome :=
  CompileSubpattern r Forward index O (λ y _, matched y).

End Engine.

(** The loop of RegExpBuiltinExec; the exception ends it. *)
Fixpoint exec_from (m : nat → Outcome) (sticky : bool) (n index : nat)
    : option (option (nat * nat)) :=
  match n with
  | O => Some None
  | S n' =>
      match m index with
      | matched e => Some (Some (index, e))
      | failure =>
          if sticky then Some None else exec_from m sticky n' (S index)
      | RangeError => None
      end
  end.

Section Limits.
Variable capacity : nat.

(** RegExpBuiltinExec(R, S): [lastIndex] is written after the match, so
    not when the matcher throws. *)
Definition RegExpBuiltinExec (R : RegExp) (str : jsstring) (σ : store)
    : option (option (nat * nat) * store) :=
  let stateful := global R || sticky R in
  let start := if stateful then lastIndex R σ else O in
  let m := CompilePattern capacity str (ignoreCase R) (matcher R) in
  r ← exec_from m (sticky R) (S (length str) - start) start;
  match r with
  | None => Some (None, if stateful then <[regexp_id R := O]> σ else σ)
  | Some (i, e) =>
      Some (Some (i, e), if stateful then <[regexp_id R := e]> σ else σ)
  end.

(** [RegExp.prototype.test]. *)
Definition test (R : RegExp) (str : jsstring) (σ : store)
    : option (bool * store) :=
  match RegExpBuiltinExec R str σ with
  | None => None
  | Some (r, σ') => Some (bool_decide (is_Some r), σ')
  end.

(** [Array.prototype.forEach] with a callback that can throw: the
    exception ends the loop. *)
Fixpoint forEach_from {A St : Type} (callback : A → nat → St → option St)
    (index : nat) (arr : list A) (st : St) : option St :=
  match arr with
  | [] => Some st
  | a :: arr' =>
      st' ← callback a index st; forEach_from callback (S index) arr' st'
  end.

Definition forEach {A St : Type} (callback : A → nat → St → option St)
    (arr : list A) (st : St) : option St :=
  forEach_from callback O arr st.

(** [scanForUnsafePatterns], lines 49 to 80, on the engine. *)
Definition scanForUnsafePatterns (content : jsstring)
    (patterns : list UnsafePattern) (filePath : option jsstring)
    (σ : store) : option (list Detection * store) :=
  if isPatternsFile filePath then Some ([], σ)
  else
    let detections : list Detection := [] in
    let lines := split 10 content in
    forEach (λ line index,
      forEach (λ pattern' _ '(detections, σ),
        match test (pattern pattern') line σ with
        | None => None
        | Some (found, σ) =>
            if found then
              Some (push detections
                      {| Detection.pattern := pattern';
                         Detection.lineNumber := index + 1;
                         Detection.matchedText := trim line |}, σ)
            else Some (detections, σ)
        end) patterns) lines (detections, σ).

(** [vscode.Uri.parse] throws on the strings that [Uri_accepts] refuses;
    the Uri of an accepted string is kept as that string. *)
Variable Uri_accepts : jsstring → bool.

(** The callback of [updateDiagnostics], lines 122 to 159: after
    [document.lineAt], [Uri.parse] is the call that can throw. *)
Definition toDiagnostic (document : vscode.TextDocument)
    (detection : Detection) : option Diagnostic :=
  diagnostic ← toDiagnostic document detection;
  if Uri_accepts (docUrl (Detection.pattern detection)) then Some diagnostic
  else None.

(** [updateDiagnostics], lines 107 to 187. *)
Definition updateDiagnostics (document : vscode.TextDocument)
    (detections : list Detection) (st : ExtensionState)
    : option ExtensionState :=
  if includes (vscode.fileName document) (lit "unsafe-queries.ts") ||
     includes (vscode.fileName document) (lit "unsafe-queries.js")
  then
    Some {| diagnosticCollection :=
              <[vscode.uri document := []]> (diagnosticCollection st);
            codeActionProviders := codeActionProviders st;
            regexps := regexps st |}
  else
    diagnostics ←
      forEach_throw (λ detection diagnostics,
        diagnostic ← toDiagnostic document detection;
        Some (diagnostics ++ [diagnostic])) detections [];
    Some {| diagnosticCollection :=
              <[vscode.uri document := diagnostics]> (diagnosticCollection st);
            codeActionProviders :=
              codeActionProviders st ++
              [[lit "javascript"]; [lit "typescript"]];
            regexps := regexps st |}.

(** [scanCurrentFile], lines 81 to 101: neither call is guarded. *)
Definition scanCurrentFile (document : vscode.TextDocument)
    (st : ExtensionState) : option ExtensionState :=
  if negb (bool_decide (vscode.languageId document = lit "javascript")) &&
     negb (bool_decide (vscode.languageId document = lit "typescript")) &&
     negb (bool_decide (vscode.languageId document = lit "javascriptreact")) &&
     negb (bool_decide (vscode.languageId document = lit "typescriptreact"))
  then Some st
  else
    let text := vscode.getText document in
    match scanForUnsafePatterns text unsafePatterns
            (Some (vscode.fileName document)) (regexps st) with
    | None => None
    | Some (detections, σ) =>
        updateDiagnostics document detections
          {| diagnosticCollection := diagnosticCollection st;
             codeActionProviders := codeActionProviders st;
             regexps := σ |}
    end.

End Limits.

End Runtime.

(** ** Notions about the runtime *)







(** [s], [n] times. *)
Fixpoint repeatString (s : jsstring) (n : nat) : jsstring :=
  match n with
  | O => []
  | S n' => s ++ repeatString s n'
  end.



(** An [await] of a property path of [n] steps, on one line. *)
Definition long_await (n : nat) : jsstring :=
  lit "await " ++ repeatString (lit "a.") n.

(** * Properties *)

(** ** The matcher: the iteration bound of a quantifier is never reached *)

Section MatcherFacts.
Variable Input : jsstring.
Variable ic : bool.

Lemma reach_refl dir x : reach Input dir x x.
Proof. destruct dir; simpl; lia. Qed.

Lemma reach_trans dir x y z : reach Input dir x y → reach Input dir y z → reach Input dir x z.
Proof. destruct dir; simpl; lia. Qed.

Lemma reach_dist dir x y : reach Input dir x y → (dist Input dir y ≤ dist Input dir x)%nat.
Proof. destruct dir; simpl; lia. Qed.

Lemma reach_dist_lt dir x y :
  reach Input dir x y → y ≠ x → (dist Input dir y < dist Input dir x)%nat.
Proof. destruct dir; simpl; lia. Qed.

Lemma dist_le dir x : (dist Input dir x ≤ length Input)%nat.
Proof. destruct dir; simpl; lia. Qed.

Lemma CharacterSetMatcher_local A invert dir :
  local Input (CharacterSetMatcher Input ic A invert dir) dir.
Proof.
  intros x c c' Hc. unfold CharacterSetMatcher. destruct dir.
  - destruct (Input !! x) as [chr|] eqn:E; [|done].
    apply lookup_lt_Some in E. case_match; [|done]. apply Hc. simpl. lia.
  - destruct x as [|x']; [done|].
    destruct (Input !! x') as [chr|] eqn:E; [|done].
    apply lookup_lt_Some in E. case_match; [|done]. apply Hc. simpl. lia.
Qed.

Lemma RepeatMatcher_O m min max greedy x c :
  RepeatMatcher O m min max greedy x c =
  if bool_decide (max = Some O) then c x else None.
Proof. reflexivity. Qed.

Lemma RepeatMatcher_S fuel m min max greedy x c :
  RepeatMatcher (S fuel) m min max greedy x c =
  if bool_decide (max = Some O) then c x
  else if negb (bool_decide (min = O))
       then m x (repeat_d fuel m min max greedy x c)
  else if greedy
       then orElse (m x (repeat_d fuel m min max greedy x c)) (c x)
  else orElse (c x) (m x (repeat_d fuel m min max greedy x c)).
Proof. reflexivity. Qed.

Lemma RepeatMatcher_local fuel m dir min max greedy :
  local Input m dir →
  local Input (λ x c, RepeatMatcher fuel m min max greedy x c) dir.
Proof.
  intros Hm. revert min max.
  induction fuel as [|fuel IH]; intros min max x c c' Hc.
  - rewrite !RepeatMatcher_O. case_bool_decide; [|done].
    apply Hc, reach_refl.
  - rewrite !RepeatMatcher_S.
    case_bool_decide; [apply Hc, reach_refl|].
    assert (Hd : ∀ y, reach Input dir x y →
      repeat_d fuel m min max greedy x c y =
      repeat_d fuel m min max greedy x c' y).
    { intros y Hy. unfold repeat_d. case_match; [done|].
      apply IH. intros z Hz. apply Hc. by eapply reach_trans. }
    rewrite (Hm x _ _ Hd), (Hc x (reach_refl _ _)). done.
Qed.

Lemma CompileSubpattern_local extra r dir :
  local Input (CompileSubpattern Input ic extra r dir) dir.
Proof.
  revert dir.
  induction r as [| |invert atoms|r1 IH1 r2 IH2|r1 IH1 r2 IH2
                  |r IH min max greedy|r IH| | |negated|dir' negated r IH];
    intros dir; cbn [CompileSubpattern].
  - intros x c c' Hc. apply Hc, reach_refl.
  - apply CharacterSetMatcher_local.
  - apply CharacterSetMatcher_local.
  - destruct dir; intros x c c' Hc.
    + apply IH1. intros y Hy. apply IH2.
      intros z Hz. apply Hc. by eapply reach_trans.
    + apply IH2. intros y Hy. apply IH1.
      intros z Hz. apply Hc. by eapply reach_trans.
  - intros x c c' Hc. by rewrite (IH1 dir x c c'), (IH2 dir x c c').
  - apply RepeatMatcher_local, IH.
  - apply IH.
  - intros x c c' Hc. case_bool_decide; [|done]. apply Hc, reach_refl.
  - intros x c c' Hc. case_bool_decide; [|done]. apply Hc, reach_refl.
  - intros x c c' Hc. cbv zeta. case_match; [|done]. apply Hc, reach_refl.
  - intros x c c' Hc. cbv zeta. rewrite (Hc x (reach_refl _ _)). done.
Qed.

(** Two amounts of fuel above [min] plus the code units left give the
    same result. *)
Lemma RepeatMatcher_fuel dir m m' greedy c :
  local Input m dir →
  (∀ x k, m x k = m' x k) →
  ∀ f f' min max x,
    (min + dist Input dir x < f)%nat → (min + dist Input dir x < f')%nat →
    RepeatMatcher f m min max greedy x c =
    RepeatMatcher f' m' min max greedy x c.
Proof.
  intros Hm Hmm'. induction f as [|f IH]; intros f' min max x Hf Hf'.
  { lia. }
  destruct f' as [|f']; [lia|]. rewrite !RepeatMatcher_S.
  case_bool_decide; [done|].
  assert (Hd : ∀ y, reach Input dir x y →
    repeat_d f m min max greedy x c y =
    repeat_d f' m' min max greedy x c y).
  { intros y Hy. unfold repeat_d.
    destruct (bool_decide (min = O)) eqn:Emin; simpl.
    - apply bool_decide_eq_true in Emin. subst min.
      case_bool_decide as Eyx; [done|].
      pose proof (reach_dist_lt _ _ _ Hy Eyx).
      apply IH; simpl in *; lia.
    - apply bool_decide_eq_false in Emin.
      pose proof (reach_dist _ _ _ Hy).
      apply IH; lia. }
  rewrite (Hm x _ _ Hd), (Hmm' x _). done.
Qed.


End MatcherFacts.

(** ** Character classes under the flag [i]

    CharacterSetMatcher asks whether some member of the set has the
    canonical form of the input character; [range_mem] and [\w] decide
    it. *)

(** Boolean tests on code units, as arithmetic. *)
Ltac bool_arith :=
  unfold isWordChar, isDigit, isUpper, isLower in *;
  repeat (progress rewrite ?andb_true_iff, ?orb_true_iff, ?andb_false_iff,
            ?orb_false_iff, ?N.leb_le, ?N.leb_gt, ?N.eqb_eq, ?N.eqb_neq in *);
  intuition (try congruence; lia).

Lemma Canonicalize_cases ic c :
  (ic = true ∧ 97 ≤ c ≤ 122 ∧ Canonicalize ic c = c - 32) ∨
  ((ic = false ∨ c < 97 ∨ 122 < c) ∧ Canonicalize ic c = c).
Proof.
  unfold Canonicalize. destruct ic; simpl; [|by right; split; [left|]].
  destruct (isLower c) eqn:E; [left|right]; (split_and!; [..|done]);
    try done; bool_arith.
Qed.

Lemma Canonicalize_idem ic c :
  Canonicalize ic (Canonicalize ic c) = Canonicalize ic c.
Proof.
  destruct (Canonicalize_cases ic c) as [(? & ? & ->)|[? ->]].
  - destruct (Canonicalize_cases ic (c - 32)) as [(? & ? & ?)|[? ->]];
      [bool_arith|done].
  - destruct (Canonicalize_cases ic c) as [(? & ? & ?)|[? ->]];
      [bool_arith|done].
Qed.

Lemma range_mem_spec ic lo hi chr :
  range_mem ic lo hi (Canonicalize ic chr) = true ↔
  ∃ a, lo ≤ a ≤ hi ∧ Canonicalize ic a = Canonicalize ic chr.
Proof.
  unfold range_mem. rewrite Canonicalize_idem, N.eqb_refl, andb_true_r.
  split.
  - intros [H|H]%orb_true_iff.
    + exists (Canonicalize ic chr). rewrite Canonicalize_idem.
      split; [bool_arith|done].
    + exists (Canonicalize ic chr + 32).
      destruct (Canonicalize_cases ic (Canonicalize ic chr + 32))
        as [(? & ? & ->)|[? ->]]; bool_arith.
  - intros (a & Ha & <-).
    destruct (Canonicalize_cases ic a) as [(-> & ? & ->)|[? ->]]; bool_arith.
Qed.

Lemma word_mem_spec ic chr :
  isWordChar (Canonicalize ic chr) = true ↔
  ∃ a, isWordChar a = true ∧ Canonicalize ic a = Canonicalize ic chr.
Proof.
  split.
  - intros H. exists (Canonicalize ic chr). by rewrite Canonicalize_idem.
  - intros (a & H & <-).
    destruct (Canonicalize_cases ic a) as [(? & ? & ->)|[? ->]];
      [bool_arith|done].
Qed.

(** ** Strings *)

Lemma startsWith_spec (s p : jsstring) :
  startsWith s p = true ↔ ∃ t, s = p ++ t.
Proof.
  revert s. induction p as [|b p IH]; intros [|a s]; simpl.
  - split; [by exists []|done].
  - split; [by eexists|done].
  - split; [done|]. by intros [t ?].
  - rewrite andb_true_iff, N.eqb_eq, IH. split.
    + intros [-> [t ->]]. by exists t.
    + intros [t [= -> ->]]. eauto.
Qed.

Lemma includes_spec (s p : jsstring) :
  includes s p = true ↔ ∃ a b, s = a ++ p ++ b.
Proof.
  induction s as [|c s IH]; cbn [includes].
  - rewrite orb_false_r, startsWith_spec. split.
    + intros [t ->]. by exists [], t.
    + intros (a & b & H). symmetry in H.
      apply app_eq_nil in H as [-> H]. apply app_eq_nil in H as [-> ->].
      by exists [].
  - rewrite orb_true_iff, startsWith_spec, IH. split.
    + intros [[t ->]|(a & b & ->)]; [by exists [], t|by exists (c :: a), b].
    + intros ([|c' a] & b & H); simpl in H.
      * left. by exists b.
      * injection H as -> ->. right. by exists a, b.
Qed.

Lemma endsWith_spec (s p : jsstring) :
  endsWith s p = true ↔ ∃ a, s = a ++ p.
Proof.
  unfold endsWith. rewrite startsWith_spec. split.
  - intros [t H]. exists (reverse t).
    apply (inj reverse). by rewrite reverse_app, reverse_involutive.
  - intros [a ->]. exists (reverse a). by rewrite reverse_app.
Qed.

(** A suffix is a substring. *)
Lemma endsWith_includes (s p : jsstring) :
  endsWith s p = true → includes s p = true.
Proof.
  rewrite endsWith_spec, includes_spec. intros [a ->].
  exists a, []. by rewrite app_nil_r.
Qed.

Lemma split_nonempty (sep : N) (s : jsstring) : split sep s ≠ [].
Proof. destruct s as [|c s]; simpl; [done|]. repeat case_match; done. Qed.

(** No piece of a split holds the separator, and the pieces joined by the
    separator give the string back. *)
Lemma split_no_sep (sep : N) (s piece : jsstring) :
  piece ∈ split sep s → sep ∉ piece.
Proof.
  revert piece. induction s as [|c s IH]; intros piece; simpl.
  - rewrite list_elem_of_singleton. intros ->. apply not_elem_of_nil.
  - destruct (c =? sep) eqn:E.
    + rewrite elem_of_cons. intros [->|H]; [apply not_elem_of_nil|by apply IH].
    + apply N.eqb_neq in E.
      destruct (split sep s) as [|p ps] eqn:Es; [by destruct (split_nonempty sep s)|].
      rewrite elem_of_cons. intros [->|H].
      * rewrite not_elem_of_cons. split; [done|]. apply IH. by left.
      * apply IH. by right.
Qed.

Lemma join_split (sep : N) (s : jsstring) : join sep (split sep s) = s.
Proof.
  induction s as [|c s IH]; simpl; [done|].
  destruct (c =? sep) eqn:E.
  - apply N.eqb_eq in E as ->.
    destruct (split sep s) as [|p ps] eqn:Es; [by destruct (split_nonempty sep s)|].
    simpl in *. by rewrite IH.
  - destruct (split sep s) as [|p ps] eqn:Es; [by destruct (split_nonempty sep s)|].
    destruct ps; simpl in *; by rewrite <- IH.
Qed.

(** [trim] leaves no white space at either end and removes nothing else. *)
Lemma trimStart_spec (s : jsstring) :
  ∃ ws, s = ws ++ trimStart s ∧ Forall (λ c, isSpace c = true) ws ∧
        (∀ c, head (trimStart s) = Some c → isSpace c = false).
Proof.
  induction s as [|c s (ws & Hs & Hws & Hh)]; simpl.
  - exists []. by repeat split.
  - destruct (isSpace c) eqn:E.
    + exists (c :: ws). repeat split; [simpl; by rewrite <- Hs|by constructor|done].
    + exists []. repeat split; [done|]. by intros ? [= <-].
Qed.

Lemma trim_spec (s : jsstring) :
  ∃ ws1 ws2, s = ws1 ++ trim s ++ ws2 ∧
    Forall (λ c, isSpace c = true) ws1 ∧ Forall (λ c, isSpace c = true) ws2 ∧
    (∀ c, head (trim s) = Some c → isSpace c = false) ∧
    (∀ c, last (trim s) = Some c → isSpace c = false).
Proof.
  destruct (trimStart_spec s) as (ws1 & Hs & Hws1 & Hh).
  destruct (trimStart_spec (reverse (trimStart s))) as (ws2 & Hr & Hws2 & Hl).
  unfold trim, trimEnd.
  set (t := trimStart (reverse (trimStart s))) in *.
  assert (Ht : trimStart s = reverse t ++ reverse ws2).
  { apply (inj reverse). by rewrite reverse_app, !reverse_involutive. }
  exists ws1, (reverse ws2). split_and!.
  - by rewrite <- Ht.
  - done.
  - by apply Forall_reverse.
  - intros c Hc. destruct (reverse t) as [|c' t'] eqn:Et; [done|].
    simpl in Hc. injection Hc as ->. apply Hh. by rewrite Ht.
  - intros c Hc. apply Hl. by rewrite <- last_reverse, Hc.
Qed.

(** ** RegExp objects without the [g] and [y] flags *)

(** [test] on such an object neither reads nor writes the store. *)
Lemma test_stateless (R : RegExp) (str : jsstring) (σ : store) :
  stateless R → test R str σ = ((test R str ∅).1, σ).
Proof.
  intros [Hg Hy]. unfold test, RegExpBuiltinExec. rewrite Hg, Hy.
  cbn [orb]. by destruct (exec_from _ _ _ _) as [[i e]|].
Qed.

(** ** The two loops of the scan *)

Lemma scanForUnsafePatterns_eq content patterns filePath (σ : store) :
  scanForUnsafePatterns content patterns filePath σ =
  if isPatternsFile filePath then ([], σ)
  else forEach (onLine patterns) (split 10 content) ([], σ).
Proof. reflexivity. Qed.

Lemma Earlier_scanForUnsafePatterns_eq content patterns (σ : store) :
  Earlier.scanForUnsafePatterns content patterns σ =
  forEach (onLine patterns) (split 10 content) ([], σ).
Proof. reflexivity. Qed.

(** A loop invariant for [forEach]. *)
Lemma forEach_from_ind {A St : Type} (I : St → Prop)
    (f : A → nat → St → St) (arr : list A) (i : nat) (st : St) :
  I st →
  (∀ k a st', arr !! k = Some a → I st' → I (f a (i + k)%nat st')) →
  I (forEach_from f i arr st).
Proof.
  revert i st. induction arr as [|a arr IH]; intros i st Hst Hf; simpl.
  - done.
  - apply IH.
    + specialize (Hf O a st). rewrite Nat.add_0_r in Hf. by apply Hf.
    + intros k b st' Hk Hst'. specialize (Hf (S k) b st').
      rewrite Nat.add_succ_r in Hf. by apply Hf.
Qed.

Lemma onLine_line_faithful patterns (lines : list jsstring) (σ : store) :
  Forall (line_faithful lines) (forEach (onLine patterns) lines ([], σ)).1.
Proof.
  unfold forEach.
  apply (forEach_from_ind (λ st, Forall (line_faithful lines) st.1)).
  { constructor. }
  intros k line st Hk Hst. unfold onLine, forEach.
  apply (forEach_from_ind (λ st, Forall (line_faithful lines) st.1));
    [done|].
  intros j p [ds σ'] _ Hds. unfold onPattern.
  destruct (test (pattern p) line σ') as [[|] σ'']; [|done].
  simpl in *. unfold push. apply Forall_app. split; [done|].
  apply Forall_singleton. unfold line_faithful, mkDetection. simpl.
  apply lookup_lt_Some in Hk as Hlt. split; [lia|].
  exists line. by replace (k + 1 - 1)%nat with k by lia.
Qed.

(** ** Stateless rule sets: the scan as a list comprehension *)

Lemma onPattern_stateless line index patterns k ds (σ : store) :
  Forall (λ p, stateless (pattern p)) patterns →
  forEach_from (onPattern line index) k patterns (ds, σ) =
  (ds ++ (mkDetection line index <$> filter (λ p, hit p line) patterns), σ).
Proof.
  intros Hst. revert k ds.
  induction Hst as [|p patterns Hp Hst IH]; intros k ds; simpl.
  - by rewrite app_nil_r.
  - rewrite (test_stateless _ _ _ Hp). rewrite filter_cons. fold (hit p line).
    destruct (hit p line) eqn:E; simpl.
    + rewrite IH. unfold push. by rewrite <- app_assoc.
    + by rewrite IH.
Qed.

Lemma onLine_stateless patterns lines i ds (σ : store) :
  Forall (λ p, stateless (pattern p)) patterns →
  forEach_from (onLine patterns) i lines (ds, σ) =
  (ds ++ hits patterns i lines, σ).
Proof.
  intros Hst. revert i ds.
  induction lines as [|line lines IH]; intros i ds; simpl.
  - by rewrite app_nil_r.
  - unfold onLine at 2, forEach. rewrite onPattern_stateless by done.
    rewrite IH. by rewrite <- app_assoc.
Qed.

(** The scan of a stateless rule set leaves the store as it was and returns
    the comprehension. *)
Lemma scan_stateless content patterns filePath (σ : store) :
  Forall (λ p, stateless (pattern p)) patterns →
  scanForUnsafePatterns content patterns filePath σ =
  (if isPatternsFile filePath then []
   else hits patterns O (split 10 content), σ).
Proof.
  intros Hst. rewrite scanForUnsafePatterns_eq.
  destruct (isPatternsFile filePath); [done|].
  unfold forEach. by rewrite onLine_stateless.
Qed.

Lemma elem_of_hits patterns i lines d :
  d ∈ hits patterns i lines ↔
  ∃ n line p, lines !! n = Some line ∧ p ∈ patterns ∧ hit p line = true ∧
              d = mkDetection line (i + n) p.
Proof.
  revert i. induction lines as [|line lines IH]; intros i; simpl.
  - split; [by intros ?%elem_of_nil|]. by intros (n & ? & ? & ? & _).
  - rewrite elem_of_app, list_elem_of_fmap, IH. split.
    + intros [(p & -> & Hp)|(n & l & p & Hn & Hp & Hh & ->)].
      * apply list_elem_of_filter in Hp as [Hh Hp].
        exists O, line, p. rewrite Nat.add_0_r.
        split_and!; [done|done|by apply Is_true_true|done].
      * exists (S n), l, p. by rewrite Nat.add_succ_r.
    + intros ([|n] & l & p & Hn & Hp & Hh & ->); simpl in Hn.
      * injection Hn as ->. left. exists p. rewrite Nat.add_0_r.
        split; [done|]. apply list_elem_of_filter. by rewrite Hh.
      * right. exists n, l, p. by rewrite Nat.add_succ_r.
Qed.

(** ** The order of the output *)

Lemma StronglySorted_lookup {A} (R : relation A) (l : list A) i j a b :
  StronglySorted R l → (i < j)%nat →
  l !! i = Some a → l !! j = Some b → R a b.
Proof.
  intros Hl. revert i j. induction Hl as [|x l Hl IH Hx]; intros i j Hij Hi Hj.
  - done.
  - destruct j as [|j]; [lia|]. simpl in Hj. destruct i as [|i]; simpl in Hi.
    + injection Hi as ->. rewrite Forall_forall in Hx.
      apply Hx. by eapply list_elem_of_lookup_2.
    + apply (IH i j); [lia|done..].
Qed.

Lemma StronglySorted_NoDup {A} (R : relation A) (l : list A) :
  (∀ a, ¬ R a a) → StronglySorted R l → NoDup l.
Proof.
  intros Hirr. induction 1 as [|x l Hl IH Hx]; constructor; [|done].
  intros Hin. rewrite Forall_forall in Hx. by apply (Hirr x), Hx.
Qed.

Lemma line_hits_sorted line i (P : UnsafePattern → Prop)
    `{!∀ p, Decision (P p)} (pre suf : list UnsafePattern) :
  StronglySorted (before (pre ++ suf)) (mkDetection line i <$> filter P suf).
Proof.
  revert pre. induction suf as [|p suf IH]; intros pre.
  - constructor.
  - rewrite filter_cons. specialize (IH (pre ++ [p])).
    rewrite <- app_assoc in IH. simpl in IH.
    destruct (decide (P p)); [|done]. rewrite fmap_cons.
    constructor; [done|]. apply Forall_fmap, Forall_forall. intros q Hq.
    apply list_elem_of_filter in Hq as [_ Hq].
    apply list_elem_of_lookup in Hq as [k Hk].
    right. split; [done|]. exists (length pre), (length pre + S k)%nat.
    split_and!.
    + by rewrite lookup_app_r, Nat.sub_diag by lia.
    + rewrite lookup_app_r by lia.
      by replace (length pre + S k - length pre)%nat with (S k) by lia.
    + lia.
Qed.

Lemma hits_sorted patterns i lines :
  StronglySorted (before patterns) (hits patterns i lines).
Proof.
  revert i. induction lines as [|line lines IH]; intros i; simpl.
  - constructor.
  - apply StronglySorted_app. split_and!.
    + intros a b Ha Hb. left.
      apply list_elem_of_fmap in Ha as (p & -> & _).
      apply elem_of_hits in Hb as (n & l & q & _ & _ & _ & ->). simpl. lia.
    + apply (line_hits_sorted line i _ [] patterns).
    + apply IH.
Qed.

Lemma before_irrefl patterns a : NoDup patterns → ¬ before patterns a a.
Proof.
  intros Hnd [?|[_ (ka & kb & Ha & Hb & Hlt)]]; [lia|].
  pose proof (NoDup_lookup _ _ _ _ Hnd Ha Hb). lia.
Qed.


(** ** The catalog *)

Lemma length_unsafePatterns : length unsafePatterns = 35%nat.
Proof. reflexivity. Qed.

(** Every literal of the catalog is a well-formed pattern with the flag [i]
    alone, and the RegExp of the [n]-th rule is the object [n]. *)
Lemma unsafePatterns_compiled :
  ∀ n p, unsafePatterns !! n = Some p →
    RegExpCreate n (source (pattern p)) (lit "i") = Some (pattern p).
Proof.
  intros n p Hn. apply lookup_lt_Some in Hn as Hlt.
  rewrite length_unsafePatterns in Hlt.
  do 35 (destruct n as [|n];
         [injection Hn as <-; vm_compute; reflexivity|]).
  lia.
Qed.

Lemma unsafePatterns_stateless :
  Forall (λ p, stateless (pattern p)) unsafePatterns.
Proof. unfold stateless. repeat constructor. Qed.

Lemma unsafePatterns_ids_NoDup : NoDup (id <$> unsafePatterns).
Proof. apply (bool_decide_unpack _). vm_compute. exact I. Qed.

Lemma unsafePatterns_NoDup : NoDup unsafePatterns.
Proof. eapply NoDup_fmap_1, unsafePatterns_ids_NoDup. Qed.

(** A scan with the catalog does not read the store and leaves it as it
    was. *)
Lemma scan_catalog content filePath (σ : store) :
  scanForUnsafePatterns content unsafePatterns filePath σ =
  ((scanForUnsafePatterns content unsafePatterns filePath ∅).1, σ).
Proof. by rewrite !(scan_stateless _ _ _ _ unsafePatterns_stateless). Qed.

(** The guard is the substring test: an empty path contains neither
    name. *)
Lemma isPatternsFile_Some (path : jsstring) :
  isPatternsFile (Some path) =
  includes path (lit "unsafe-queries.ts") ||
  includes path (lit "unsafe-queries.js").
Proof.
  destruct path as [|c path]; [reflexivity|].
  unfold isPatternsFile. by rewrite bool_decide_eq_false_2.
Qed.

(** The scenario of the unconstrained query: the rules that fire on
    [db.users.find({});], with their severities. *)
Example unconstrained_query_detected :
  (λ d, (id (Detection.pattern d), severity (Detection.pattern d))) <$>
    (scanForUnsafePatterns (lit "db.users.find({});") unsafePatterns None ∅).1
  = [(lit "UNCONSTRAINED_QUERY", medium);
     (lit "MONGOOSE_QUERY_EXEC_MISSING", low);
     (lit "SENSITIVE_FIELD_EXPOSURE", high)].
Proof. vm_compute. reflexivity. Qed.

(** ** The runtime: the engine computes the match results of the semantics *)

Section EngineFacts.
Variable capacity : nat.
Variable Input : jsstring.
Variable ic : bool.







(** ** A stack of [stackNeed] entries is never exhausted *)





End EngineFacts.

(** ** From the matcher to the scan *)
















(** ** A long property path exhausts every stack *)











(** The same text on two stacks: the scan throws on the smaller one and
    returns, with no Detection, on the larger one. *)
Example long_await_small :
  Runtime.scanForUnsafePatterns 10 (long_await 10) unsafePatterns None ∅ =
    None ∧
  Runtime.scanForUnsafePatterns 23 (long_await 10) unsafePatterns None ∅ =
    Some ([], ∅).
Proof. split; vm_compute; reflexivity. Qed.

(** ** The claims *)

(** C1. With the catalog as rule set, the Detections of a scan come in
    strict order: of two Detections the earlier one has the smaller line
    number, or the same line number and a rule that stands earlier in the
    catalog.  No Detection occurs twice, and (when the file is not the
    patterns file) the Detections are exactly the pairs of a line and a
    catalog rule whose RegExp tests true on that line. *)
Theorem scan_ordered (content : jsstring) (filePath : option jsstring)
    (σ : store) :
  let ds := (scanForUnsafePatterns content unsafePatterns filePath σ).1 in
  (∀ i j a b, (i < j)%nat → ds !! i = Some a → ds !! j = Some b →
     before unsafePatterns a b) ∧
  NoDup ds ∧
  (isPatternsFile filePath = false →
   ∀ d, d ∈ ds ↔
     ∃ n line p, split 10 content !! n = Some line ∧ p ∈ unsafePatterns ∧
       (test (pattern p) line σ).1 = true ∧ d = mkDetection line n p).
Proof.
  intros ds. subst ds.
  rewrite (scan_stateless _ _ _ _ unsafePatterns_stateless). cbn [fst].
  assert (Hs : StronglySorted (before unsafePatterns)
    (if isPatternsFile filePath then []
     else hits unsafePatterns O (split 10 content))).
  { destruct (isPatternsFile filePath); [constructor|apply hits_sorted]. }
  split_and!.
  - intros i j a b. by apply StronglySorted_lookup.
  - eapply StronglySorted_NoDup; [|done].
    intros a. apply before_irrefl, unsafePatterns_NoDup.
  - intros ->. intros d. rewrite elem_of_hits.
    pose proof unsafePatterns_stateless as Hst. rewrite Forall_forall in Hst.
    split; intros (n & line & p & Hn & Hp & Hh & ->); exists n, line, p;
      (split_and!; [done|done| |done]).
    + by rewrite (test_stateless _ _ _ (Hst p Hp)).
    + by rewrite (test_stateless _ _ _ (Hst p Hp)) in Hh.
Qed.

Lemma scan_ordered_witness :
  let ds := (scanForUnsafePatterns two_lines unsafePatterns None ∅).1 in
  match ds !! 1%nat, ds !! 2%nat with
  | Some a, Some b => before unsafePatterns a b
  | _, _ => False
  end ∧
  ∀ d, d ∈ ds ↔
     ∃ n line p, split 10 two_lines !! n = Some line ∧ p ∈ unsafePatterns ∧
       (test (pattern p) line ∅).1 = true ∧ d = mkDetection line n p.
Proof.
  intros ds.
  destruct (scan_ordered two_lines None ∅) as (H1 & _ & H3). split.
  - destruct (ds !! 1%nat) as [a|] eqn:Ea; [|by vm_compute in Ea].
    destruct (ds !! 2%nat) as [b|] eqn:Eb; [|by vm_compute in Eb].
    apply (H1 1%nat 2%nat); [lia|done|done].
  - apply H3. reflexivity.
Defined.

(** C2, as stated, fails: a path that contains the name of the patterns
    file without ending with it is not given the normal line scan. *)
Lemma suffix_convention_counterexample :
  ¬ (endsWith (lit "unsafe-queries.tsx") (lit "unsafe-queries.ts") = false →
     endsWith (lit "unsafe-queries.tsx") (lit "unsafe-queries.js") = false →
     scanForUnsafePatterns where_line unsafePatterns
       (Some (lit "unsafe-queries.tsx")) ∅ =
     scanForUnsafePatterns where_line unsafePatterns None ∅).
Proof.
  intros H. specialize (H eq_refl eq_refl).
  apply (f_equal (λ r, length r.1)) in H. vm_compute in H. discriminate H.
Qed.

(** C2, amended.  The guard is a substring test: when the path contains
    [unsafe-queries.ts] or [unsafe-queries.js] (in particular when it ends
    with one of them) the scan returns no Detection, whatever the text and
    the rule set; when it contains neither, the scan is the scan without a
    path. *)
Theorem scan_self_exclusion (content : jsstring)
    (patterns : list UnsafePattern) (path : jsstring) (σ : store) :
  (endsWith path (lit "unsafe-queries.ts") = true ∨
   endsWith path (lit "unsafe-queries.js") = true →
   scanForUnsafePatterns content patterns (Some path) σ = ([], σ)) ∧
  (includes path (lit "unsafe-queries.ts") = true ∨
   includes path (lit "unsafe-queries.js") = true →
   scanForUnsafePatterns content patterns (Some path) σ = ([], σ)) ∧
  (includes path (lit "unsafe-queries.ts") = false →
   includes path (lit "unsafe-queries.js") = false →
   scanForUnsafePatterns content patterns (Some path) σ =
   scanForUnsafePatterns content patterns None σ).
Proof.
  assert (Hinc : includes path (lit "unsafe-queries.ts") = true ∨
                 includes path (lit "unsafe-queries.js") = true →
     scanForUnsafePatterns content patterns (Some path) σ = ([], σ)).
  { intros H. rewrite scanForUnsafePatterns_eq, isPatternsFile_Some.
    by destruct H as [-> | ->]; rewrite ?orb_true_r. }
  split_and!.
  - intros [H|H]; apply Hinc; [left|right]; by apply endsWith_includes.
  - done.
  - intros H1 H2. rewrite !scanForUnsafePatterns_eq, isPatternsFile_Some.
    by rewrite H1, H2.
Qed.

Lemma scan_self_exclusion_witness :
  scanForUnsafePatterns where_line unsafePatterns
    (Some (lit "/out/patterns/unsafe-queries.js")) ∅ = ([], ∅) ∧
  scanForUnsafePatterns where_line unsafePatterns
    (Some (lit "/src/unsafe-queries.ts.orig")) ∅ = ([], ∅) ∧
  scanForUnsafePatterns where_line unsafePatterns
    (Some (lit "/src/routes/users.ts")) ∅ =
  scanForUnsafePatterns where_line unsafePatterns None ∅.
Proof.
  split_and!.
  - apply (proj1 (scan_self_exclusion where_line unsafePatterns
                    (lit "/out/patterns/unsafe-queries.js") ∅)).
    right. vm_compute. reflexivity.
  - apply (proj1 (proj2 (scan_self_exclusion where_line unsafePatterns
                           (lit "/src/unsafe-queries.ts.orig") ∅))).
    left. vm_compute. reflexivity.
  - apply (proj2 (proj2 (scan_self_exclusion where_line unsafePatterns
                           (lit "/src/routes/users.ts") ∅)));
      vm_compute; reflexivity.
Defined.

(** C3. For every text, rule set, path and store, every Detection of a scan
    has a line number between 1 and the number of lines of the text, and
    its matched text is that line, trimmed. *)
Theorem scan_line_fidelity (content : jsstring)
    (patterns : list UnsafePattern) (filePath : option jsstring)
    (σ : store) :
  Forall (line_faithful (split 10 content))
         (scanForUnsafePatterns content patterns filePath σ).1.
Proof.
  rewrite scanForUnsafePatterns_eq. destruct (isPatternsFile filePath).
  - constructor.
  - apply onLine_line_faithful.
Qed.

Example global_flag_remembers :
  let '(ds1, σ1) := scanForUnsafePatterns (lit "find") [global_rule] None ∅ in
  let '(ds2, σ2) := scanForUnsafePatterns (lit "find") [global_rule] None σ1 in
  length ds1 = 1%nat ∧ σ1 !! O = Some 4%nat ∧
  length ds2 = 0%nat ∧ σ2 !! O = Some 0%nat.
Proof. vm_compute. done. Qed.

(** C4. No RegExp of the catalog carries the flag [g] or [y]; the
    Detections of a scan with the catalog are the same from every store,
    the scan leaves the store as it was, and so a second scan with the same
    arguments returns the same Detections as the first. *)
Theorem scan_deterministic (content : jsstring)
    (filePath : option jsstring) (σ1 σ2 : store) :
  Forall (λ p, global (pattern p) = false ∧ sticky (pattern p) = false)
         unsafePatterns ∧
  (scanForUnsafePatterns content unsafePatterns filePath σ1).1 =
  (scanForUnsafePatterns content unsafePatterns filePath σ2).1 ∧
  (scanForUnsafePatterns content unsafePatterns filePath σ1).2 = σ1 ∧
  (let '(ds1, σ') :=
     scanForUnsafePatterns content unsafePatterns filePath σ1 in
   let '(ds2, σ'') :=
     scanForUnsafePatterns content unsafePatterns filePath σ' in
   ds1 = ds2 ∧ σ'' = σ1).
Proof.
  split_and!.
  - apply unsafePatterns_stateless.
  - by rewrite (scan_catalog _ _ σ1), (scan_catalog _ _ σ2).
  - by rewrite (scan_catalog _ _ σ1).
  - rewrite (scan_catalog _ _ σ1). by rewrite (scan_catalog _ _ σ1).
Qed.




(** C6, at its input: the scan of
    [db.users.find({ active: true, role: "user" });] with the catalog
    returns two Detections, the first for FUNCTION_PARAMETER_INJECTION, of
    severity high, and the second for MONGOOSE_QUERY_EXEC_MISSING; none is
    for UNCONSTRAINED_QUERY.  The line is the [safeExample] of the rule
    UNCONSTRAINED_QUERY, and the RegExp of FUNCTION_PARAMETER_INJECTION,
    which fires on the literal [true], does not match the rule's own
    [example]. *)
Theorem safe_example_flagged (σ : store) :
  let ds := (scanForUnsafePatterns safe_line unsafePatterns None σ).1 in
  (λ d, id (Detection.pattern d)) <$> ds =
    [lit "FUNCTION_PARAMETER_INJECTION"; lit "MONGOOSE_QUERY_EXEC_MISSING"] ∧
  (λ d, severity (Detection.pattern d)) <$> ds = [high; low] ∧
  (∃ p, p ∈ unsafePatterns ∧ id p = lit "UNCONSTRAINED_QUERY" ∧
        safeExample p = safe_line) ∧
  (∃ p, p ∈ unsafePatterns ∧ id p = lit "FUNCTION_PARAMETER_INJECTION" ∧
        (test (pattern p) (example p) σ).1 = false).
Proof.
  intros ds. subst ds. rewrite scan_catalog. cbn [fst]. split_and!.
  - vm_compute. reflexivity.
  - vm_compute. reflexivity.
  - assert (H : ∃ p, unsafePatterns !! 16%nat = Some p ∧
                     id p = lit "UNCONSTRAINED_QUERY" ∧
                     safeExample p = safe_line).
    { eexists. split; [reflexivity|]. split; vm_compute; reflexivity. }
    destruct H as (p & Hp & Hid & Hex). exists p.
    split; [by eapply list_elem_of_lookup_2|done].
  - assert (H : ∃ p, unsafePatterns !! O = Some p ∧
                     id p = lit "FUNCTION_PARAMETER_INJECTION" ∧
                     hit p (example p) = false).
    { eexists. split; [reflexivity|]. split; vm_compute; reflexivity. }
    destruct H as (p & Hp & Hid & Hex). exists p.
    apply list_elem_of_lookup_2 in Hp. split_and!; [done..|].
    pose proof unsafePatterns_stateless as Hst. rewrite Forall_forall in Hst.
    by rewrite (test_stateless _ _ _ (Hst p Hp)).
Qed.

(** C7, as stated, fails: the empty text is one empty line, and a rule that
    matches the empty string is reported on it. *)
Lemma empty_text_counterexample :
  ¬ (scanForUnsafePatterns [] [star_rule] None ∅).1 = [].
Proof. vm_compute. discriminate. Qed.

Lemma test_empty (R : RegExp) (σ : store) :
  CompilePattern [] (ignoreCase R) (matcher R) O = None →
  (test R [] σ).1 = false.
Proof.
  intros H. unfold test, RegExpBuiltinExec. cbn [length].
  destruct (if global R || sticky R then lastIndex R σ else O) as [|k];
    cbn [Nat.sub exec_from].
  - rewrite H. by destruct (sticky R), (global R || sticky R).
  - by destruct (global R || sticky R).
Qed.

(** C7, amended.  The scan of the empty text with the catalog returns no
    Detection; so does the scan with any rule set none of whose RegExps
    matches the empty string. *)
Theorem scan_empty_text (patterns : list UnsafePattern)
    (filePath : option jsstring) (σ : store) :
  scanForUnsafePatterns [] unsafePatterns filePath σ = ([], σ) ∧
  (Forall (λ p, CompilePattern [] (ignoreCase (pattern p))
                  (matcher (pattern p)) O = None) patterns →
   (scanForUnsafePatterns [] patterns filePath σ).1 = []).
Proof.
  split.
  - rewrite (scan_stateless _ _ _ _ unsafePatterns_stateless).
    assert (hits unsafePatterns O (split 10 []) = []) as ->
      by (vm_compute; reflexivity).
    by destruct (isPatternsFile filePath).
  - intros Hp. rewrite Forall_forall in Hp. rewrite scanForUnsafePatterns_eq.
    destruct (isPatternsFile filePath); [done|].
    cbn [split forEach forEach_from]. unfold onLine, forEach.
    apply (forEach_from_ind (λ st : scan_state, st.1 = [])); [done|].
    intros k p [ds σ'] Hk Hds. simpl in Hds. subst ds. unfold onPattern.
    apply list_elem_of_lookup_2, Hp in Hk.
    pose proof (test_empty (pattern p) σ' Hk) as Ht.
    destruct (test (pattern p) [] σ') as [found σ'']. simpl in Ht.
    by subst found.
Qed.

Lemma scan_empty_text_witness :
  (scanForUnsafePatterns [] [global_rule] None ∅).1 = [].
Proof.
  apply (proj2 (scan_empty_text [global_rule] None ∅)).
  repeat constructor.
Defined.

(** C8. The scan of
    [db.users.find({ $where: "this.username === '" + username + "'" });]
    with the catalog has a Detection on line 1 whose rule has the id
    NOSQL_INJECTION_OBJECT and the severity high. *)
Theorem where_injection_detected (σ : store) :
  ∃ d, d ∈ (scanForUnsafePatterns where_line unsafePatterns None σ).1 ∧
       id (Detection.pattern d) = lit "NOSQL_INJECTION_OBJECT" ∧
       severity (Detection.pattern d) = high ∧
       Detection.lineNumber d = 1%nat.
Proof.
  rewrite scan_catalog. cbn [fst].
  destruct ((scanForUnsafePatterns where_line unsafePatterns None ∅).1 !! O)
    as [d|] eqn:E; [|by vm_compute in E].
  exists d. split; [by eapply list_elem_of_lookup_2|].
  vm_compute in E. injection E as <-. split_and!; vm_compute; reflexivity.
Qed.

(** C9. [getSeverityColor] maps each of the three severity levels to a
    color of its own, maps every other string to a fourth, fixed color, and
    the four colors differ. *)
Theorem getSeverityColor_total (severity : jsstring) :
  (∀ level : Severity,
     getSeverityColor (Severity_string level) =
     match level with
     | high => lit "#FF4D4F"
     | medium => lit "#FAAD14"
     | low => lit "#52C41A"
     end) ∧
  NoDup [lit "#FF4D4F"; lit "#FAAD14"; lit "#52C41A"; lit "#1890FF"] ∧
  ((∀ level : Severity, severity ≠ Severity_string level) →
   getSeverityColor severity = lit "#1890FF").
Proof.
  split_and!.
  - by intros [].
  - apply (bool_decide_unpack _). vm_compute. exact I.
  - intros H. unfold getSeverityColor.
    pose proof (H high). pose proof (H medium). pose proof (H low).
    by rewrite !bool_decide_eq_false_2.
Qed.

Lemma getSeverityColor_total_witness :
  getSeverityColor (lit "critical") = lit "#1890FF".
Proof.
  apply (proj2 (proj2 (getSeverityColor_total (lit "critical")))).
  intros []; vm_compute; discriminate.
Defined.

(** C10. When the later version of the scan is called without a path, or
    with a path that contains neither [unsafe-queries.ts] nor
    [unsafe-queries.js], it returns what the earlier version returns, for
    every text, rule set and store. *)
Theorem scan_versions_agree (content : jsstring)
    (patterns : list UnsafePattern) (filePath : option jsstring)
    (σ : store) :
  (filePath = None ∨
   ∃ path, filePath = Some path ∧
     includes path (lit "unsafe-queries.ts") = false ∧
     includes path (lit "unsafe-queries.js") = false) →
  scanForUnsafePatterns content patterns filePath σ =
  Earlier.scanForUnsafePatterns content patterns σ.
Proof.
  intros H. rewrite scanForUnsafePatterns_eq, Earlier_scanForUnsafePatterns_eq.
  destruct H as [->|(path & -> & H1 & H2)]; [done|].
  by rewrite isPatternsFile_Some, H1, H2.
Qed.

Lemma scan_versions_agree_witness :
  scanForUnsafePatterns two_lines [global_rule; star_rule]
    (Some (lit "/src/routes/users.ts")) ∅ =
  Earlier.scanForUnsafePatterns two_lines [global_rule; star_rule] ∅.
Proof.
  apply scan_versions_agree. right. eexists. split; [reflexivity|].
  split; vm_compute; reflexivity.
Defined.

(** * More properties of the scan engine *)

Lemma forEach_from_app {A St : Type} (f : A → nat → St → St)
    (l1 l2 : list A) (i : nat) (st : St) :
  forEach_from f i (l1 ++ l2) st =
  forEach_from f (i + length l1)%nat l2 (forEach_from f i l1 st).
Proof.
  revert i st. induction l1 as [|a l1 IH]; intros i st; simpl.
  - by rewrite Nat.add_0_r.
  - rewrite IH. by rewrite Nat.add_succ_r.
Qed.

Lemma split_app (sep : N) (a b : jsstring) :
  split sep (a ++ sep :: b) = split sep a ++ split sep b.
Proof.
  induction a as [|c a IH]; simpl.
  - by rewrite N.eqb_refl.
  - destruct (c =? sep); [by rewrite IH|]. rewrite IH.
    destruct (split sep a) as [|p ps] eqn:E; [by destruct (split_nonempty sep a)|].
    done.
Qed.

Lemma mkDetection_shift line n i p :
  mkDetection line (n + i) p = shiftLines n (mkDetection line i p).
Proof. unfold mkDetection, shiftLines. simpl. f_equal. lia. Qed.

Lemma onPattern_shift line n i patterns k k' ds ds0 (σ : store) :
  forEach_from (onPattern line (n + i)) k patterns
    (ds ++ (shiftLines n <$> ds0), σ) =
  (ds ++ (shiftLines n <$>
            (forEach_from (onPattern line i) k' patterns (ds0, σ)).1),
   (forEach_from (onPattern line i) k' patterns (ds0, σ)).2).
Proof.
  revert k k' ds0 σ.
  induction patterns as [|p patterns IH]; intros k k' ds0 σ; simpl; [done|].
  destruct (test (pattern p) line σ) as [[|] σ1].
  - unfold push. rewrite <- app_assoc, mkDetection_shift.
    change [shiftLines n (mkDetection line i p)]
      with (shiftLines n <$> [mkDetection line i p]).
    rewrite <- fmap_app. apply IH.
  - apply IH.
Qed.

Lemma onLine_shift patterns n i lines ds ds0 (σ : store) :
  forEach_from (onLine patterns) (n + i) lines
    (ds ++ (shiftLines n <$> ds0), σ) =
  (ds ++ (shiftLines n <$>
            (forEach_from (onLine patterns) i lines (ds0, σ)).1),
   (forEach_from (onLine patterns) i lines (ds0, σ)).2).
Proof.
  revert i ds0 σ.
  induction lines as [|line lines IH]; intros i ds0 σ; simpl; [done|].
  unfold onLine at 2 4 6, forEach.
  rewrite (onPattern_shift line n i patterns O O).
  destruct (forEach_from (onPattern line i) O patterns (ds0, σ)) as [ds1 σ1].
  simpl. rewrite <- Nat.add_succ_r. apply IH.
Qed.

(** X1. Lines are scanned one by one and nothing but the store of the
    RegExp objects is carried from a line to the next: the scan of a text
    followed by a line feed and a second text is the scan of the first, then
    the scan of the second from the store the first left, with the line
    numbers of the second moved down by the number of lines of the first. *)
Theorem scan_app (a b : jsstring) (patterns : list UnsafePattern)
    (σ : store) :
  scanForUnsafePatterns (a ++ nl ++ b) patterns None σ =
  (let ra := scanForUnsafePatterns a patterns None σ in
   let rb := scanForUnsafePatterns b patterns None ra.2 in
   (ra.1 ++ (shiftLines (length (split 10 a)) <$> rb.1), rb.2)).
Proof.
  rewrite !scanForUnsafePatterns_eq. cbn [isPatternsFile]. cbv zeta.
  rewrite scanForUnsafePatterns_eq. cbn [isPatternsFile].
  unfold forEach, nl. cbn [app]. rewrite split_app, forEach_from_app.
  destruct (forEach_from (onLine patterns) O (split 10 a) ([], σ))
    as [da σa]. cbn [fst snd].
  rewrite <- (app_nil_r da) at 1.
  change (@nil Detection) with (shiftLines (length (split 10 a)) <$> [])
    at 1.
  rewrite <- (Nat.add_0_r (length (split 10 a))) at 1.
  rewrite Nat.add_0_l. apply onLine_shift.
Qed.

Lemma onPattern_sublist line i patterns k ds (σ : store) :
  ∃ new, (forEach_from (onPattern line i) k patterns (ds, σ)).1 = ds ++ new ∧
         new `sublist_of` (mkDetection line i <$> patterns).
Proof.
  revert k ds σ.
  induction patterns as [|p patterns IH]; intros k ds σ; simpl.
  - exists []. by rewrite app_nil_r.
  - destruct (test (pattern p) line σ) as [[|] σ1].
    + destruct (IH (S k) (push ds (mkDetection line i p)) σ1)
        as (new & -> & Hnew).
      exists (mkDetection line i p :: new). unfold push.
      rewrite <- app_assoc. split; [done|]. by constructor.
    + destruct (IH (S k) ds σ1) as (new & -> & Hnew).
      exists new. split; [done|]. by constructor.
Qed.

Lemma onLine_sublist patterns i lines ds (σ : store) :
  ∃ new, (forEach_from (onLine patterns) i lines (ds, σ)).1 = ds ++ new ∧
         new `sublist_of` candidates patterns i lines.
Proof.
  revert i ds σ.
  induction lines as [|line lines IH]; intros i ds σ; simpl.
  - exists []. by rewrite app_nil_r.
  - unfold onLine at 2, forEach.
    destruct (onPattern_sublist line i patterns O ds σ) as (new1 & H1 & Hs1).
    destruct (forEach_from (onPattern line i) O patterns (ds, σ))
      as [ds1 σ1]. simpl in H1. subst ds1.
    destruct (IH (S i) (ds ++ new1) σ1) as (new2 & -> & Hs2).
    exists (new1 ++ new2). rewrite app_assoc. split; [done|].
    by apply sublist_app.
Qed.

Lemma StronglySorted_sublist {A} (R : relation A) (l1 l2 : list A) :
  l1 `sublist_of` l2 → StronglySorted R l2 → StronglySorted R l1.
Proof.
  induction 1 as [|x l1 l2 Hs IH|x l1 l2 Hs IH]; intros Hl2.
  - constructor.
  - apply StronglySorted_inv in Hl2 as [Hl2 Hx]. constructor; [by apply IH|].
    rewrite Forall_forall in *. intros y Hy. apply Hx.
    by eapply sublist_subseteq.
  - apply StronglySorted_inv in Hl2 as [Hl2 _]. by apply IH.
Qed.

Lemma list_filter_True {A} (l : list A) : filter (λ _, True) l = l.
Proof.
  induction l as [|x l IH]; [done|]. by rewrite filter_cons_True, IH.
Qed.

Lemma elem_of_candidates patterns i lines d :
  d ∈ candidates patterns i lines →
  (i < Detection.lineNumber d ≤ i + length lines)%nat.
Proof.
  revert i. induction lines as [|line lines IH]; intros i; simpl.
  - by intros ?%elem_of_nil.
  - rewrite elem_of_app, list_elem_of_fmap.
    intros [(p & -> & _)|H]; [simpl; lia|]. apply IH in H. lia.
Qed.

Lemma candidates_sorted patterns i lines :
  StronglySorted (before patterns) (candidates patterns i lines).
Proof.
  revert i. induction lines as [|line lines IH]; intros i; simpl.
  - constructor.
  - apply StronglySorted_app. split_and!.
    + intros a b Ha Hb. left.
      apply list_elem_of_fmap in Ha as (p & -> & _).
      apply elem_of_candidates in Hb. simpl. lia.
    + pose proof (line_hits_sorted line i (λ _, True) [] patterns) as H.
      by rewrite list_filter_True in H.
    + apply IH.
Qed.

Lemma length_candidates patterns i lines :
  length (candidates patterns i lines) = (length lines * length patterns)%nat.
Proof.
  revert i. induction lines as [|line lines IH]; intros i; simpl; [done|].
  by rewrite length_app, length_fmap, IH.
Qed.

(** X2. For every rule set, with or without the flags [g] and [y], and
    from every store, the Detections of a scan are a subsequence of the
    pairs of a line and a rule taken line by line and, within a line, rule
    by rule.  So they are ordered by line number and then by the position
    of the rule, and there are at most as many as lines times rules. *)
Theorem scan_subsequence (content : jsstring)
    (patterns : list UnsafePattern) (filePath : option jsstring)
    (σ : store) :
  let ds := (scanForUnsafePatterns content patterns filePath σ).1 in
  ds `sublist_of` candidates patterns O (split 10 content) ∧
  StronglySorted (before patterns) ds ∧
  (length ds ≤ length (split 10 content) * length patterns)%nat.
Proof.
  intros ds.
  assert (Hs : ds `sublist_of` candidates patterns O (split 10 content)).
  { subst ds. rewrite scanForUnsafePatterns_eq.
    destruct (isPatternsFile filePath); [apply sublist_nil_l|].
    unfold forEach.
    by destruct (onLine_sublist patterns O (split 10 content) [] σ)
      as (new & -> & Hnew). }
  split_and!; [done| |].
  - eapply StronglySorted_sublist; [done|apply candidates_sorted].
  - rewrite <- (length_candidates patterns O). by apply sublist_length.
Qed.

Lemma test_frame (R : RegExp) (str : jsstring) (σ : store) (k : nat) :
  regexp_id R ≠ k ∨ stateless R → (test R str σ).2 !! k = σ !! k.
Proof.
  intros H. unfold test, RegExpBuiltinExec.
  destruct (exec_from _ _ _ _) as [[i e]|]; cbn [snd];
    (destruct (global R || sticky R) eqn:E; [|done]);
    (destruct H as [H|[Hg Hy]]; [by rewrite lookup_insert_ne|]);
    by rewrite Hg, Hy in E.
Qed.

(** X3. A scan writes the [lastIndex] of no RegExp but those of its rule
    set that carry the flag [g] or [y]: at every other key the store is
    as it was. *)
Theorem scan_frame (content : jsstring) (patterns : list UnsafePattern)
    (filePath : option jsstring) (σ : store) (k : nat) :
  (∀ p, p ∈ patterns → regexp_id (pattern p) = k → stateless (pattern p)) →
  (scanForUnsafePatterns content patterns filePath σ).2 !! k = σ !! k.
Proof.
  intros Hk. rewrite scanForUnsafePatterns_eq.
  destruct (isPatternsFile filePath); [done|]. unfold forEach.
  apply (forEach_from_ind (λ st : scan_state, st.2 !! k = σ !! k)); [done|].
  intros i line st _ Hst. unfold onLine, forEach.
  apply (forEach_from_ind (λ st : scan_state, st.2 !! k = σ !! k)); [done|].
  intros j p [ds σ'] Hp Hσ'. unfold onPattern.
  apply list_elem_of_lookup_2 in Hp.
  assert (Ht : (test (pattern p) line σ').2 !! k = σ' !! k).
  { apply test_frame. destruct (decide (regexp_id (pattern p) = k));
      [right; by apply Hk|by left]. }
  destruct (test (pattern p) line σ') as [[|] σ'']; simpl in *; congruence.
Qed.

Lemma scan_frame_witness :
  (scanForUnsafePatterns two_lines [global_rule; star_rule] None
     {[ 7%nat := 3%nat ]}).2 !! 7%nat = Some 3%nat.
Proof.
  etrans.
  - apply (scan_frame two_lines [global_rule; star_rule] None
             {[ 7%nat := 3%nat ]} 7%nat).
    intros p Hp Hid. exfalso. revert Hid.
    apply elem_of_cons in Hp as [->|Hp]; [by vm_compute|].
    apply list_elem_of_singleton in Hp as ->. by vm_compute.
  - vm_compute. reflexivity.
Defined.

Lemma split_head_prefix (sep : N) (s piece : jsstring) pieces :
  split sep s = piece :: pieces → ∃ b, s = piece ++ b.
Proof.
  revert piece pieces. induction s as [|c s IH]; intros piece pieces; simpl.
  - intros [= <- <-]. by exists [].
  - destruct (c =? sep).
    + intros [= <- <-]. by eexists.
    + destruct (split sep s) as [|p ps] eqn:E;
        [by destruct (split_nonempty sep s)|].
      intros [= <- <-]. destruct (IH p ps eq_refl) as [b ->]. by exists b.
Qed.

Lemma split_piece_infix (sep : N) (s piece : jsstring) :
  piece ∈ split sep s → ∃ a b, s = a ++ piece ++ b.
Proof.
  revert piece. induction s as [|c s IH]; intros piece; simpl.
  - intros ->%list_elem_of_singleton. by exists [], [].
  - destruct (c =? sep).
    + intros [->|H]%elem_of_cons; [by exists [], (c :: s)|].
      destruct (IH _ H) as (a & b & ->). by exists (c :: a), b.
    + destruct (split sep s) as [|p ps] eqn:E;
        [by destruct (split_nonempty sep s)|].
      intros [->|H]%elem_of_cons.
      * destruct (split_head_prefix _ _ _ _ E) as [b ->]. by exists [], b.
      * destruct (IH piece) as (a & b & ->); [by right|].
        by exists (c :: a), b.
Qed.

(** X4. The matched text of every Detection is a contiguous part of the
    scanned text, and it neither begins nor ends with white space or a line
    terminator (a carriage return left by a CRLF line end is stripped). *)
Theorem scan_matchedText (content : jsstring)
    (patterns : list UnsafePattern) (filePath : option jsstring)
    (σ : store) :
  Forall (λ d,
      (∃ a b, content = a ++ Detection.matchedText d ++ b) ∧
      (∀ c, head (Detection.matchedText d) = Some c → isSpace c = false) ∧
      (∀ c, last (Detection.matchedText d) = Some c → isSpace c = false))
    (scanForUnsafePatterns content patterns filePath σ).1.
Proof.
  rewrite scanForUnsafePatterns_eq.
  destruct (isPatternsFile filePath); [constructor|].
  eapply Forall_impl; [apply onLine_line_faithful|].
  intros d (_ & line & Hline & ->).
  destruct (trim_spec line) as (ws1 & ws2 & Hl & _ & _ & Hh & Hla).
  split_and!; [|done..].
  apply list_elem_of_lookup_2, split_piece_infix in Hline as (a & b & ->).
  exists (a ++ ws1), (ws2 ++ b). rewrite Hl at 1. by rewrite <- !app_assoc.
Qed.

(** X5. For a rule set without the flags [g] and [y], a scan that the
    guard does not skip returns exactly the pairs of a line and a rule whose
    RegExp matches the line, leaves the store as it was and does not depend
    on it; when the rules are pairwise different no Detection occurs
    twice. *)
Theorem scan_stateless_exact (content : jsstring)
    (patterns : list UnsafePattern) (filePath : option jsstring)
    (σ : store) :
  Forall (λ p, stateless (pattern p)) patterns →
  isPatternsFile filePath = false →
  let r := scanForUnsafePatterns content patterns filePath σ in
  r.2 = σ ∧
  r.1 = (scanForUnsafePatterns content patterns filePath ∅).1 ∧
  (∀ d, d ∈ r.1 ↔
     ∃ n line p, split 10 content !! n = Some line ∧ p ∈ patterns ∧
       (test (pattern p) line σ).1 = true ∧ d = mkDetection line n p) ∧
  (NoDup patterns → NoDup r.1).
Proof.
  intros Hst Hfp r. subst r. rewrite !(scan_stateless _ _ _ _ Hst), Hfp.
  cbn [fst snd]. split_and!; [done|done| |].
  - intros d. rewrite elem_of_hits. rewrite Forall_forall in Hst.
    split; intros (n & line & p & Hn & Hp & Hh & ->); exists n, line, p;
      (split_and!; [done|done| |done]).
    + by rewrite (test_stateless _ _ _ (Hst p Hp)).
    + by rewrite (test_stateless _ _ _ (Hst p Hp)) in Hh.
  - intros Hnd. eapply StronglySorted_NoDup; [|apply hits_sorted].
    intros a. by apply before_irrefl.
Qed.

Lemma scan_stateless_exact_witness :
  (scanForUnsafePatterns two_lines [star_rule] (Some (lit "/src/app.ts"))
     {[ 0%nat := 5%nat ]}).2 = {[ 0%nat := 5%nat ]}.
Proof.
  apply (scan_stateless_exact two_lines [star_rule]
           (Some (lit "/src/app.ts")) {[ 0%nat := 5%nat ]}).
  - repeat constructor.
  - vm_compute. reflexivity.
Defined.

(** ** The flag [i]: the case of ASCII letters does not matter *)

Lemma caseEq_isWordChar a b : caseEq a b → isWordChar a = isWordChar b.
Proof.
  unfold caseEq. intros H.
  destruct (Canonicalize_cases true a) as [(_ & ? & Ha)|[? Ha]];
    destruct (Canonicalize_cases true b) as [(_ & ? & Hb)|[? Hb]];
    rewrite Ha, Hb in H;
    destruct (isWordChar a) eqn:Ea, (isWordChar b) eqn:Eb; try done;
    bool_arith.
Qed.

Lemma caseEq_line_feed a b : caseEq a b → (a =? 10) = (b =? 10).
Proof.
  unfold caseEq. intros H.
  destruct (Canonicalize_cases true a) as [(_ & ? & Ha)|[? Ha]];
    destruct (Canonicalize_cases true b) as [(_ & ? & Hb)|[? Hb]];
    rewrite Ha, Hb in H;
    destruct (a =? 10) eqn:Ea, (b =? 10) eqn:Eb; try done; bool_arith.
Qed.

Section CaseInsensitive.
Variable Input Input' : jsstring.
Hypothesis Hcase : Forall2 caseEq Input Input'.

Lemma caseEq_length : length Input = length Input'.
Proof using Hcase. by eapply Forall2_length. Qed.

Lemma caseEq_lookup x :
  match Input !! x, Input' !! x with
  | Some a, Some b => caseEq a b
  | None, None => True
  | _, _ => False
  end.
Proof using Hcase.
  destruct (Input !! x) as [a|] eqn:Ea.
  - destruct (Forall2_lookup_l _ _ _ _ _ Hcase Ea) as (b & -> & H). done.
  - apply lookup_ge_None in Ea. rewrite caseEq_length in Ea.
    apply lookup_ge_None in Ea. by rewrite Ea.
Qed.

Lemma CharacterSetMatcher_caseEq A invert dir x c :
  CharacterSetMatcher Input true A invert dir x c =
  CharacterSetMatcher Input' true A invert dir x c.
Proof using Hcase.
  unfold CharacterSetMatcher. destruct dir.
  - pose proof (caseEq_lookup x) as H.
    destruct (Input !! x), (Input' !! x); try done.
    unfold caseEq in H. by rewrite H.
  - destruct x as [|x']; [done|]. pose proof (caseEq_lookup x') as H.
    destruct (Input !! x'), (Input' !! x'); try done.
    unfold caseEq in H. by rewrite H.
Qed.

Lemma IsWordCharAt_caseEq x : IsWordCharAt Input x = IsWordCharAt Input' x.
Proof using Hcase.
  unfold IsWordCharAt. pose proof (caseEq_lookup x) as H.
  destruct (Input !! x), (Input' !! x); try done.
  by apply caseEq_isWordChar.
Qed.

Lemma CompileSubpattern_caseEq extra r dir x c :
  CompileSubpattern Input true extra r dir x c =
  CompileSubpattern Input' true extra r dir x c.
Proof using Hcase.
  revert dir x c.
  induction r as [| |invert atoms|r1 IH1 r2 IH2|r1 IH1 r2 IH2
                  |r IH min max greedy|r IH| | |negated|dir' negated r IH];
    intros dir x c; cbn [CompileSubpattern]; try done.
  - apply CharacterSetMatcher_caseEq.
  - apply CharacterSetMatcher_caseEq.
  - destruct dir.
    + rewrite IH1. apply CompileSubpattern_local. intros y _. apply IH2.
    + rewrite IH2. apply CompileSubpattern_local. intros y _. apply IH1.
  - by rewrite IH1, IH2.
  - pose proof (dist_le Input dir x).
    apply (RepeatMatcher_fuel Input dir);
      [apply CompileSubpattern_local|intros; apply IH
      |unfold repeat_fuel; rewrite <- ?caseEq_length; lia..].
  - by rewrite caseEq_length.
  - cbv zeta. rewrite (IsWordCharAt_caseEq x).
    destruct x as [|x']; [done|]. cbn [IsWordCharBefore].
    by rewrite (IsWordCharAt_caseEq x').
  - by rewrite IH.
Qed.

Lemma test_caseEq (R : RegExp) :
  stateless R → ignoreCase R = true →
  (test R Input ∅).1 = (test R Input' ∅).1.
Proof using Hcase.
  intros [Hg Hy] Hi. unfold test, RegExpBuiltinExec.
  rewrite Hg, Hy, Hi, caseEq_length. cbn [orb].
  assert (He : ∀ n i,
    exec_from (CompilePattern Input true (matcher R)) false n i =
    exec_from (CompilePattern Input' true (matcher R)) false n i).
  { induction n as [|n IH]; intros i; simpl; [done|].
    unfold CompilePattern at 1 3. rewrite CompileSubpattern_caseEq.
    by rewrite IH. }
  rewrite He. by destruct (exec_from _ _ _ _) as [[i e]|].
Qed.

End CaseInsensitive.

Lemma split_caseEq (s s' : jsstring) :
  Forall2 caseEq s s' →
  Forall2 (Forall2 caseEq) (split 10 s) (split 10 s').
Proof.
  induction 1 as [|a b s s' Hab Hs IH]; simpl.
  - repeat constructor.
  - rewrite <- (caseEq_line_feed a b Hab). destruct (a =? 10).
    + by repeat constructor.
    + destruct IH as [|p p' ps ps' Hp Hps];
        [by repeat constructor|].
      constructor; [by constructor|done].
Qed.

Lemma line_hits_caseEq patterns i (line line' : jsstring) :
  Forall (λ p, stateless (pattern p) ∧ ignoreCase (pattern p) = true)
         patterns →
  Forall2 caseEq line line' →
  report <$> (mkDetection line i <$> filter (λ p, hit p line) patterns) =
  report <$> (mkDetection line' i <$> filter (λ p, hit p line') patterns).
Proof.
  intros Hp Hline.
  induction Hp as [|p patterns [Hst Hi] Hp IH]; [done|].
  assert (E : hit p line = hit p line')
    by apply (test_caseEq line line' Hline (pattern p) Hst Hi).
  destruct (hit p line') eqn:E'.
  - rewrite (filter_cons_True (λ p, hit p line))
      by (simpl; apply Is_true_true, E).
    rewrite (filter_cons_True (λ p, hit p line'))
      by (simpl; apply Is_true_true, E').
    rewrite !fmap_cons. by f_equal.
  - rewrite (filter_cons_False (λ p, hit p line))
      by (simpl; apply Is_true_false, E).
    by rewrite (filter_cons_False (λ p, hit p line'))
      by (simpl; apply Is_true_false, E').
Qed.

Lemma hits_caseEq patterns i (lines lines' : list jsstring) :
  Forall (λ p, stateless (pattern p) ∧ ignoreCase (pattern p) = true)
         patterns →
  Forall2 (Forall2 caseEq) lines lines' →
  report <$> hits patterns i lines = report <$> hits patterns i lines'.
Proof.
  intros Hp Hl. revert i.
  induction Hl as [|line line' lines lines' Hline Hl IH]; intros i; simpl;
    [done|].
  by rewrite !fmap_app, IH, (line_hits_caseEq patterns i line line').
Qed.

(** X6. A rule set whose RegExps all carry the flag [i], and neither [g]
    nor [y], reports the same rules on the same lines for two texts that
    differ only in the case of ASCII letters. *)
Theorem scan_case_insensitive (content content' : jsstring)
    (patterns : list UnsafePattern) (filePath : option jsstring)
    (σ : store) :
  Forall (λ p, stateless (pattern p) ∧ ignoreCase (pattern p) = true)
         patterns →
  Forall2 caseEq content content' →
  report <$> (scanForUnsafePatterns content patterns filePath σ).1 =
  report <$> (scanForUnsafePatterns content' patterns filePath σ).1.
Proof.
  intros Hp Hc.
  assert (Hst : Forall (λ p, stateless (pattern p)) patterns).
  { eapply Forall_impl; [done|]. by intros p [? _]. }
  rewrite !(scan_stateless _ _ _ _ Hst). cbn [fst].
  destruct (isPatternsFile filePath); [done|].
  apply hits_caseEq; [done|]. by apply split_caseEq.
Qed.

Lemma scan_case_insensitive_witness :
  report <$> (scanForUnsafePatterns (lit "db.eval(x)") unsafePatterns None ∅).1
  = report <$>
      (scanForUnsafePatterns (lit "DB.Eval(X)") unsafePatterns None ∅).1.
Proof.
  apply (scan_case_insensitive (lit "db.eval(x)") (lit "DB.Eval(X)")
           unsafePatterns None ∅).
  - unfold stateless. repeat constructor.
  - repeat constructor.
Defined.

(** X7. The catalog is well formed: it has 35 rules with pairwise
    different ids; every regular-expression literal is a pattern of the
    modelled grammar with the flag [i] alone; and every [docUrl] begins
    with [https://www.mongodb.com/docs/manual/]. *)
Theorem unsafePatterns_wellformed :
  length unsafePatterns = 35%nat ∧
  NoDup (id <$> unsafePatterns) ∧
  Forall (λ p, ParsePattern (source (pattern p)) = Some (matcher (pattern p)) ∧
               global (pattern p) = false ∧ ignoreCase (pattern p) = true ∧
               sticky (pattern p) = false ∧
               startsWith (docUrl p)
                 (lit "https://www.mongodb.com/docs/manual/") = true)
         unsafePatterns.
Proof.
  split_and!; [done|apply unsafePatterns_ids_NoDup|].
  unfold unsafePatterns.
  repeat (constructor; [split_and!; vm_compute; reflexivity|]).
  constructor.
Qed.

(** * Properties of the editor integration *)

Lemma lineAt_Some (document : vscode.TextDocument) (n : nat) :
  vscode.lineAt document (Z.of_nat n - 1) =
  if bool_decide (n = O) then None
  else vscode.textLines document !! (n - 1)%nat.
Proof.
  unfold vscode.lineAt. case_bool_decide as Hn.
  - subst n. done.
  - destruct (Z.ltb_spec (Z.of_nat n - 1) 0) as [?|_]; [lia|].
    by replace (Z.to_nat (Z.of_nat n - 1)) with (n - 1)%nat by lia.
Qed.

Lemma toDiagnostic_None document d :
  toDiagnostic document d = None ↔ ¬ onDocument document d.
Proof.
  unfold toDiagnostic, onDocument. rewrite lineAt_Some.
  case_bool_decide as Hn.
  - split; [lia|done].
  - destruct (vscode.textLines document !! _) as [line|] eqn:E; simpl.
    + apply lookup_lt_Some in E. split; [done|lia].
    + apply lookup_ge_None in E. split; [lia|done].
Qed.

Lemma toDiagnostic_Some document d diagnostic :
  toDiagnostic document d = Some diagnostic → shows document d diagnostic.
Proof.
  unfold toDiagnostic, shows. rewrite lineAt_Some.
  case_bool_decide as Hn; [done|].
  destruct (vscode.textLines document !! _) as [line|] eqn:E; [|done].
  simpl. intros [= <-]. simpl. split_and!; try done.
  exists line. split; [done|]. do 2 f_equal; lia.
Qed.

Lemma updateDiagnostics_loop document detections acc :
  forEach_throw (λ detection diagnostics,
      diagnostic ← toDiagnostic document detection;
      Some (diagnostics ++ [diagnostic])) detections acc =
  (diagnostics ← mapM (toDiagnostic document) detections;
   Some (acc ++ diagnostics)).
Proof.
  revert acc. induction detections as [|d detections IH]; intros acc; simpl.
  - by rewrite app_nil_r.
  - destruct (toDiagnostic document d) as [diagnostic|]; simpl; [|done].
    rewrite IH. destruct (mapM _ detections); simpl; [|done].
    by rewrite <- app_assoc.
Qed.

Lemma updateDiagnostics_eq document detections st :
  updateDiagnostics document detections st =
  if isPatternsDocument document then
    Some {| diagnosticCollection :=
              <[vscode.uri document := []]> (diagnosticCollection st);
            codeActionProviders := codeActionProviders st;
            regexps := regexps st |}
  else
    diagnostics ← mapM (toDiagnostic document) detections;
    Some {| diagnosticCollection :=
              <[vscode.uri document := diagnostics]> (diagnosticCollection st);
            codeActionProviders :=
              codeActionProviders st ++
              [[lit "javascript"]; [lit "typescript"]];
            regexps := regexps st |}.
Proof.
  unfold updateDiagnostics, isPatternsDocument. case_match; [done|].
  rewrite updateDiagnostics_loop. by destruct (mapM _ detections).
Qed.

(** ** The exceptions of the editor integration *)

Lemma forEach_throw_mapM {A B : Type} (f : A → option B) (l : list A)
    (acc : list B) :
  forEach_throw (λ a bs, b ← f a; Some (bs ++ [b])) l acc =
  (bs ← mapM f l; Some (acc ++ bs)).
Proof.
  revert acc. induction l as [|a l IH]; intros acc; simpl.
  - by rewrite app_nil_r.
  - destruct (f a) as [b|]; simpl; [|done].
    rewrite IH. destruct (mapM f l); simpl; [|done].
    by rewrite <- app_assoc.
Qed.

Lemma engine_updateDiagnostics_eq Uri_accepts document detections st :
  Runtime.updateDiagnostics Uri_accepts document detections st =
  if isPatternsDocument document then
    Some {| diagnosticCollection :=
              <[vscode.uri document := []]> (diagnosticCollection st);
            codeActionProviders := codeActionProviders st;
            regexps := regexps st |}
  else
    diagnostics ←
      mapM (Runtime.toDiagnostic Uri_accepts document) detections;
    Some {| diagnosticCollection :=
              <[vscode.uri document := diagnostics]> (diagnosticCollection st);
            codeActionProviders :=
              codeActionProviders st ++
              [[lit "javascript"]; [lit "typescript"]];
            regexps := regexps st |}.
Proof.
  unfold Runtime.updateDiagnostics, isPatternsDocument. case_match; [done|].
  rewrite (forEach_throw_mapM (Runtime.toDiagnostic Uri_accepts document)).
  by destruct (mapM _ detections).
Qed.

Lemma engine_toDiagnostic_None Uri_accepts document d :
  Runtime.toDiagnostic Uri_accepts document d = None ↔
  ¬ onDocument document d ∨
  Uri_accepts (docUrl (Detection.pattern d)) = false.
Proof.
  unfold Runtime.toDiagnostic.
  destruct (toDiagnostic document d) as [diagnostic|] eqn:E; simpl.
  - assert (Hon : ¬ ¬ onDocument document d).
    { intros H. apply toDiagnostic_None in H. congruence. }
    destruct (Uri_accepts _); [|by split; [right|]].
    split; [done|]. by intros [?|?].
  - apply toDiagnostic_None in E. split; [by left|done].
Qed.

Lemma engine_toDiagnostic_Some Uri_accepts document d diagnostic :
  Runtime.toDiagnostic Uri_accepts document d = Some diagnostic →
  toDiagnostic document d = Some diagnostic.
Proof.
  unfold Runtime.toDiagnostic.
  destruct (toDiagnostic document d); simpl; [|done].
  by destruct (Uri_accepts _).
Qed.

Lemma engine_updateDiagnostics_Some Uri_accepts document detections st st' :
  Runtime.updateDiagnostics Uri_accepts document detections st = Some st' →
  updateDiagnostics document detections st = Some st'.
Proof.
  rewrite engine_updateDiagnostics_eq, updateDiagnostics_eq.
  destruct (isPatternsDocument document); [done|].
  destruct (mapM (Runtime.toDiagnostic _ _) _) as [diagnostics|] eqn:E;
    simpl; [|done].
  intros <-.
  assert (H : mapM (toDiagnostic document) detections = Some diagnostics).
  { apply mapM_Some. apply mapM_Some_1 in E.
    eapply Forall2_impl; [done|]. intros d diag.
    apply engine_toDiagnostic_Some. }
  by rewrite H.
Qed.

Lemma engine_updateDiagnostics_None Uri_accepts document detections st :
  Runtime.updateDiagnostics Uri_accepts document detections st = None ↔
  isPatternsDocument document = false ∧
  ∃ d, d ∈ detections ∧
    (¬ onDocument document d ∨
     Uri_accepts (docUrl (Detection.pattern d)) = false).
Proof.
  rewrite engine_updateDiagnostics_eq. destruct (isPatternsDocument document).
  { split; [done|]. by intros [? _]. }
  destruct (mapM _ detections) as [diagnostics|] eqn:E; simpl.
  - split; [done|]. intros [_ (d & Hd & Hnot)]. exfalso.
    apply mapM_Some_1 in E.
    apply list_elem_of_lookup in Hd as [i Hi].
    destruct (Forall2_lookup_l _ _ _ _ _ E Hi) as (diag & _ & Hdiag).
    apply engine_toDiagnostic_None in Hnot. congruence.
  - split; [|done]. intros _. split; [done|].
    apply mapM_None_1, Exists_exists in E as (d & Hd & Hnone).
    exists d. split; [done|]. by apply engine_toDiagnostic_None.
Qed.

(** X8. [updateDiagnostics] throws exactly when the document is not the
    patterns file and some Detection has a line number that is not a line
    of the document (the exception of [document.lineAt]) or a
    documentation address that [Uri.parse] refuses.  When it returns, the
    state is the one of the semantics, where every address is accepted. *)
Theorem updateDiagnostics_throws (Uri_accepts : jsstring → bool)
    (document : vscode.TextDocument) (detections : list Detection)
    (st : ExtensionState) :
  (Runtime.updateDiagnostics Uri_accepts document detections st = None ↔
   isPatternsDocument document = false ∧
   ∃ d, d ∈ detections ∧
     (¬ onDocument document d ∨
      Uri_accepts (docUrl (Detection.pattern d)) = false)) ∧
  (∀ st',
     Runtime.updateDiagnostics Uri_accepts document detections st = Some st' →
     updateDiagnostics document detections st = Some st').
Proof.
  split; [apply engine_updateDiagnostics_None|].
  apply engine_updateDiagnostics_Some.
Qed.

(** X9. When [updateDiagnostics] returns for a document that is not the
    patterns file, the entry of the document's uri is replaced by one
    Diagnostic per Detection, in the order of the Detections; each carries
    its Detection, the source SafeMongo, the rule's id and documentation
    address, the severity of the rule, and a range that spans the whole of
    the Detection's line.  The entries of all other uris are as they were,
    the RegExp store is untouched, and two more code-action providers are
    registered. *)
Theorem updateDiagnostics_publishes (document : vscode.TextDocument)
    (detections : list Detection) (st st' : ExtensionState) :
  isPatternsDocument document = false →
  updateDiagnostics document detections st = Some st' →
  (∃ diagnostics,
     diagnosticCollection st' !! vscode.uri document = Some diagnostics ∧
     Forall2 (shows document) detections diagnostics) ∧
  (∀ u, u ≠ vscode.uri document →
     diagnosticCollection st' !! u = diagnosticCollection st !! u) ∧
  regexps st' = regexps st ∧
  codeActionProviders st' =
    codeActionProviders st ++ [[lit "javascript"]; [lit "typescript"]].
Proof.
  intros Hp. rewrite updateDiagnostics_eq, Hp.
  destruct (mapM _ detections) as [diagnostics|] eqn:E; simpl; [|done].
  intros [= <-]. simpl. split_and!; [|  |done..].
  - exists diagnostics. rewrite lookup_insert_eq. split; [done|].
    apply mapM_Some_1 in E. eapply Forall2_impl; [done|].
    intros d diag. apply toDiagnostic_Some.
  - intros u Hu. by rewrite lookup_insert_ne.
Qed.

Lemma updateDiagnostics_publishes_witness :
  match updateDiagnostics demo_document
          (scanForUnsafePatterns two_lines unsafePatterns None ∅).1
          empty_state with
  | Some st' =>
      codeActionProviders st' =
        codeActionProviders empty_state ++
        [[lit "javascript"]; [lit "typescript"]]
  | None => False
  end.
Proof.
  destruct (updateDiagnostics demo_document
              (scanForUnsafePatterns two_lines unsafePatterns None ∅).1
              empty_state) as [st'|] eqn:E.
  - eapply (updateDiagnostics_publishes demo_document _ empty_state st');
      [vm_compute; reflexivity|exact E].
  - vm_compute in E. discriminate E.
Defined.

Lemma scanCurrentFile_eq document st :
  scanCurrentFile document st =
  if isScannedLanguage document then
    updateDiagnostics document
      (scanForUnsafePatterns (vscode.getText document) unsafePatterns
         (Some (vscode.fileName document)) (regexps st)).1 st
  else Some st.
Proof.
  unfold scanCurrentFile, isScannedLanguage.
  rewrite (scan_catalog _ _ (regexps st)).
  destruct st as [c ps σ]. cbn [regexps diagnosticCollection
    codeActionProviders fst].
  by repeat case_bool_decide.
Qed.








(** X11. For the patterns file, in one of the scanned languages,
    [scanCurrentFile] publishes the empty list of Diagnostics for the
    document's uri, whatever its text and its line table; it does not
    throw, registers no provider and leaves the RegExp store as it was. *)
Theorem scanCurrentFile_patterns_file (document : vscode.TextDocument)
    (st : ExtensionState) :
  isPatternsDocument document = true →
  isScannedLanguage document = true →
  scanCurrentFile document st =
  Some {| diagnosticCollection :=
            <[vscode.uri document := []]> (diagnosticCollection st);
          codeActionProviders := codeActionProviders st;
          regexps := regexps st |}.
Proof.
  intros Hp Hl. by rewrite scanCurrentFile_eq, Hl, updateDiagnostics_eq, Hp.
Qed.

Lemma scanCurrentFile_patterns_file_witness :
  scanCurrentFile patterns_document empty_state =
  Some {| diagnosticCollection :=
            {[ lit "file:///src/patterns/unsafe-queries.ts" := [] ]};
          codeActionProviders := []; regexps := ∅ |}.
Proof.
  rewrite (scanCurrentFile_patterns_file patterns_document empty_state);
    vm_compute; reflexivity.
Defined.

Lemma provideCodeActions_loop i diagnostics actions :
  forEach_from (λ (diagnostic : Diagnostic) (_ : nat) (actions : list CodeAction),
    if negb (bool_decide (Diagnostic.source diagnostic = lit "SafeMongo"))
    then actions
    else
      match Diagnostic.detection diagnostic with
      | None => actions
      | Some detection =>
          actions ++
          [ {| actionTitle :=
                 lit "Show details about this MongoDB security issue";
               actionKind := lit "quickfix";
               commandName := lit "safemongo.showVulnerabilityDetails";
               commandTitle := lit "Show Vulnerability Details";
               commandArguments := [detection] |} ]
      end) i diagnostics actions =
  actions ++ (showDetailsAction <$> omap actionable diagnostics).
Proof.
  revert i actions.
  induction diagnostics as [|diag diagnostics IH]; intros i actions;
    cbn [forEach_from].
  - cbn [omap list_omap fmap list_fmap]. by rewrite app_nil_r.
  - rewrite IH. cbn [omap list_omap].
    assert (Ha : actionable diag =
      if bool_decide (Diagnostic.source diag = lit "SafeMongo")
      then Diagnostic.detection diag else None) by done.
    rewrite Ha.
    destruct (bool_decide (Diagnostic.source diag = lit "SafeMongo"));
      cbn [negb]; [|done].
    destruct (Diagnostic.detection diag) as [d|]; [|done].
    rewrite fmap_cons, <- app_assoc. done.
Qed.

Lemma provideCodeActions_eq document range diagnostics :
  provideCodeActions document range diagnostics =
  showDetailsAction <$> omap actionable diagnostics.
Proof. unfold provideCodeActions, forEach. apply provideCodeActions_loop. Qed.

Lemma omap_actionable_published document detections diagnostics :
  mapM (toDiagnostic document) detections = Some diagnostics →
  omap actionable diagnostics = detections.
Proof.
  intros E%mapM_Some_1.
  induction E as [|d diag detections diagnostics Hd E IH]; [done|].
  apply toDiagnostic_Some in Hd as (Hdet & Hsrc & _).
  cbn [omap list_omap].
  assert (Ha : actionable diag = Some d).
  { unfold actionable. by rewrite bool_decide_eq_true_2. }
  by rewrite Ha, IH.
Qed.

(** X12. From a Detection to its Diagnostic to the code action and back:
    for the Diagnostics that [updateDiagnostics] published for a document,
    mixed after Diagnostics of other sources, [provideCodeActions] returns
    one action per Detection, in order, each with the command
    [safemongo.showVulnerabilityDetails] and the Detection as its only
    argument; Diagnostics of other sources get no action. *)
Theorem codeActions_round_trip (document : vscode.TextDocument)
    (detections : list Detection) (st st' : ExtensionState)
    (others : list Diagnostic) (range : vscode.Range) :
  isPatternsDocument document = false →
  updateDiagnostics document detections st = Some st' →
  Forall (λ o, Diagnostic.source o ≠ lit "SafeMongo") others →
  ∃ diagnostics,
    diagnosticCollection st' !! vscode.uri document = Some diagnostics ∧
    provideCodeActions document range (others ++ diagnostics) =
    showDetailsAction <$> detections.
Proof.
  intros Hp. rewrite updateDiagnostics_eq, Hp.
  destruct (mapM _ detections) as [diagnostics|] eqn:E; simpl; [|done].
  intros [= <-] Hothers. exists diagnostics. simpl.
  rewrite lookup_insert_eq. split; [done|].
  rewrite provideCodeActions_eq, omap_app.
  rewrite (omap_actionable_published _ _ _ E).
  replace (omap actionable others) with (@nil Detection); [done|].
  induction Hothers as [|o others Ho _ IH]; [done|].
  cbn [omap list_omap].
  assert (Ha : actionable o = None).
  { unfold actionable. by rewrite bool_decide_eq_false_2. }
  by rewrite Ha.
Qed.

Lemma codeActions_round_trip_witness :
  match updateDiagnostics demo_document
          (scanForUnsafePatterns two_lines unsafePatterns None ∅).1
          empty_state with
  | Some st' =>
      ∃ diagnostics,
        diagnosticCollection st' !! vscode.uri demo_document =
          Some diagnostics ∧
        provideCodeActions demo_document
          {| vscode.startLine := 0; vscode.startCharacter := 0;
             vscode.endLine := 0; vscode.endCharacter := 0 |}
          ([] ++ diagnostics) =
        showDetailsAction <$>
          (scanForUnsafePatterns two_lines unsafePatterns None ∅).1
  | None => False
  end.
Proof.
  destruct (updateDiagnostics demo_document
              (scanForUnsafePatterns two_lines unsafePatterns None ∅).1
              empty_state) as [st'|] eqn:E.
  - eapply (codeActions_round_trip demo_document _ empty_state st' []);
      [vm_compute; reflexivity|exact E|constructor].
  - vm_compute in E. discriminate E.
Defined.

Lemma scanCurrentFile_providers document st st' :
  scanCurrentFile document st = Some st' →
  codeActionProviders st' =
  codeActionProviders st ++
  (if isScannedLanguage document && negb (isPatternsDocument document)
   then [[lit "javascript"]; [lit "typescript"]] else []).
Proof.
  rewrite scanCurrentFile_eq.
  destruct (isScannedLanguage document); simpl;
    [|intros [= <-]; by rewrite app_nil_r].
  rewrite updateDiagnostics_eq. destruct (isPatternsDocument document); simpl.
  - intros [= <-]. simpl. by rewrite app_nil_r.
  - destruct (mapM _ _); simpl; [|done]. by intros [= <-].
Qed.

(** X13. Every scan of a document in a scanned language that is not the
    patterns file registers two more code-action providers, and none is
    ever removed: after [n] scans in a row there are [2 * n] more than
    before.  Scans of the patterns file or of another language register
    none. *)
Theorem scanTimes_providers (n : nat) (document : vscode.TextDocument)
    (st st' : ExtensionState) :
  scanTimes n document st = Some st' →
  length (codeActionProviders st') =
  (length (codeActionProviders st) +
   (if isScannedLanguage document && negb (isPatternsDocument document)
    then 2 * n else 0))%nat.
Proof.
  revert st. induction n as [|n IH]; intros st; simpl.
  - intros [= <-]. destruct (_ && _); lia.
  - destruct (scanCurrentFile document st) as [st1|] eqn:E; simpl; [|done].
    intros H. rewrite (IH _ H).
    rewrite (scanCurrentFile_providers _ _ _ E), length_app.
    destruct (_ && _); simpl; lia.
Qed.

Lemma scanTimes_providers_witness :
  match scanTimes 3 demo_document empty_state with
  | Some st' => length (codeActionProviders st') = 6%nat
  | None => False
  end.
Proof.
  destruct (scanTimes 3 demo_document empty_state) as [st'|] eqn:E.
  - rewrite (scanTimes_providers 3 demo_document empty_state st' E).
    vm_compute. reflexivity.
  - vm_compute in E. discriminate E.
Defined.

(** X14. Scanning a document a second time replaces its Diagnostics by
    the same Diagnostics: the diagnostic collection after two scans in a
    row is the collection after one. *)
Theorem scanCurrentFile_twice (document : vscode.TextDocument)
    (st st1 st2 : ExtensionState) :
  scanCurrentFile document st = Some st1 →
  scanCurrentFile document st1 = Some st2 →
  diagnosticCollection st2 = diagnosticCollection st1.
Proof.
  rewrite !scanCurrentFile_eq.
  destruct (isScannedLanguage document); [|by intros [= <-] [= <-]].
  rewrite !updateDiagnostics_eq.
  rewrite (scan_catalog _ _ (regexps st)), (scan_catalog _ _ (regexps st1)).
  cbn [fst].
  destruct (isPatternsDocument document).
  - intros [= <-] [= <-]. simpl. by rewrite insert_insert_eq.
  - destruct (mapM _ _) as [diagnostics|]; simpl; [|done].
    intros [= <-] [= <-]. simpl. by rewrite insert_insert_eq.
Qed.

Lemma scanCurrentFile_twice_witness :
  match scanCurrentFile demo_document empty_state with
  | Some st1 =>
      match scanCurrentFile demo_document st1 with
      | Some st2 => diagnosticCollection st2 = diagnosticCollection st1
      | None => False
      end
  | None => False
  end.
Proof.
  destruct (scanCurrentFile demo_document empty_state) as [st1|] eqn:E1;
    [|vm_compute in E1; discriminate E1].
  destruct (scanCurrentFile demo_document st1) as [st2|] eqn:E2.
  - exact (scanCurrentFile_twice demo_document empty_state st1 st2 E1 E2).
  - vm_compute in E1. injection E1 as <-.
    vm_compute in E2. discriminate E2.
Defined.

(** X15. The three presentations of a severity agree on what is a level:
    each of [getSeverityFromString], [getSeverityIcon] and
    [getSeverityColor] gives the three levels three different values, none
    of them its fallback, and gives every other string its fallback (Hint,
    the bullet, the blue). *)
Theorem severity_presentations (severity : jsstring) :
  (∀ a b : Severity,
     getSeverityFromString (Severity_string a) =
       getSeverityFromString (Severity_string b) ∨
     getSeverityIcon (Severity_string a) = getSeverityIcon (Severity_string b) ∨
     getSeverityColor (Severity_string a) = getSeverityColor (Severity_string b) →
     a = b) ∧
  (∀ a : Severity,
     getSeverityFromString (Severity_string a) ≠ vscode.Hint ∧
     getSeverityIcon (Severity_string a) ≠ [226; 8364; 162] ∧
     getSeverityColor (Severity_string a) ≠ lit "#1890FF") ∧
  ((∀ a : Severity, severity ≠ Severity_string a) →
   getSeverityFromString severity = vscode.Hint ∧
   getSeverityIcon severity = [226; 8364; 162] ∧
   getSeverityColor severity = lit "#1890FF").
Proof.
  split_and!.
  - intros [] [] [H|[H|H]]; try done; by vm_compute in H.
  - intros []; split_and!; by vm_compute.
  - intros H. pose proof (H high). pose proof (H medium). pose proof (H low).
    unfold getSeverityFromString, getSeverityIcon, getSeverityColor.
    by rewrite !bool_decide_eq_false_2.
Qed.

Lemma severity_presentations_witness :
  getSeverityFromString (lit "critical") = vscode.Hint ∧
  getSeverityIcon (lit "critical") = [226; 8364; 162] ∧
  getSeverityColor (lit "critical") = lit "#1890FF".
Proof.
  apply (proj2 (proj2 (severity_presentations (lit "critical")))).
  intros []; vm_compute; discriminate.
Defined.

Lemma concat_lookup_middle {A} (l : list (list A)) (k : nat) (t : list A) :
  l !! k = Some t →
  concat l = concat (take k l) ++ t ++ concat (drop (S k) l).
Proof.
  intros H. rewrite <- (take_drop_middle l k t H) at 1.
  by rewrite concat_app, concat_cons.
Qed.

Lemma startsWith_app_l (s p rest : jsstring) :
  startsWith s p = true → startsWith (s ++ rest) p = true.
Proof.
  rewrite !startsWith_spec. intros [t ->]. exists (t ++ rest).
  by rewrite app_assoc.
Qed.

Lemma endsWith_app_r (a s p : jsstring) :
  endsWith s p = true → endsWith (a ++ s) p = true.
Proof.
  rewrite !endsWith_spec. intros [b ->]. exists (a ++ b).
  by rewrite app_assoc.
Qed.

(** X16. The details panel shows the matched text as it is, with nothing
    escaped: whatever the matched text, the page is a text before, which
    ends with the opening tag of the [bad-example] block, then the matched
    text, then a text after, which begins with the closing tag; neither
    depends on the matched text.  Scripts are enabled in the panel. *)
Theorem details_matchedText_verbatim (p : UnsafePattern) (n : nat)
    (currentPanel : option WebviewPanel) :
  ∃ before after : jsstring,
    (∀ t, html (showVulnerabilityDetails
                  (Detection.mk p n t) currentPanel).2 =
          before ++ t ++ after) ∧
    endsWith before
      (lit "<pre class=" ++ dq ++ lit "bad-example" ++ dq ++ lit ">") = true ∧
    startsWith after (lit "</pre>") = true ∧
    enableScripts
      (showVulnerabilityDetails (Detection.mk p n []) currentPanel).2 = true.
Proof.
  exists (concat (take 9 (detailsTemplate (Detection.mk p n [])))),
         (concat (drop 10 (detailsTemplate (Detection.mk p n [])))).
  split_and!.
  - intros t. cbn [showVulnerabilityDetails snd html].
    by rewrite (concat_lookup_middle
                  (detailsTemplate (Detection.mk p n t)) 9 t eq_refl).
  - erewrite (take_S_r _ 8) by reflexivity.
    rewrite concat_app. apply endsWith_app_r. vm_compute. reflexivity.
  - erewrite (drop_S _ _ 10) by reflexivity.
    rewrite concat_cons. apply startsWith_app_l. vm_compute. reflexivity.
  - reflexivity.
Qed.

(** * Rule sets and final line feeds *)

Lemma line_hits_filter line i (P : UnsafePattern → Prop)
    `{!∀ p, Decision (P p)} (patterns : list UnsafePattern) :
  mkDetection line i <$> filter (λ p, hit p line) (filter P patterns) =
  filter (λ d, P (Detection.pattern d))
    (mkDetection line i <$> filter (λ p, hit p line) patterns).
Proof.
  induction patterns as [|p patterns IH]; [done|].
  rewrite (filter_cons P). destruct (decide (P p)) as [HP|HP].
  - rewrite !(filter_cons (λ p, hit p line)).
    destruct (decide (hit p line)); [|done].
    rewrite !fmap_cons, filter_cons_True by done. by rewrite IH.
  - rewrite (filter_cons (λ p, hit p line)).
    destruct (decide (hit p line)); [|done].
    by rewrite fmap_cons, filter_cons_False.
Qed.

Lemma hits_filter i (P : UnsafePattern → Prop) `{!∀ p, Decision (P p)}
    (patterns : list UnsafePattern) (lines : list jsstring) :
  hits (filter P patterns) i lines =
  filter (λ d, P (Detection.pattern d)) (hits patterns i lines).
Proof.
  revert i. induction lines as [|line lines IH]; intros i; simpl; [done|].
  by rewrite filter_app, IH, line_hits_filter.
Qed.

(** X17. For a rule set without the flags [g] and [y], taking rules out
    of the set takes out their Detections and changes nothing else: the
    scan with the rules that satisfy a condition is the scan with all
    rules, restricted to the Detections of those rules. *)
Theorem scan_filter_rules (P : UnsafePattern → Prop)
    `{!∀ p, Decision (P p)} (content : jsstring)
    (patterns : list UnsafePattern) (filePath : option jsstring)
    (σ : store) :
  Forall (λ p, stateless (pattern p)) patterns →
  (scanForUnsafePatterns content (filter P patterns) filePath σ).1 =
  filter (λ d, P (Detection.pattern d))
    (scanForUnsafePatterns content patterns filePath σ).1.
Proof.
  intros Hst.
  assert (Hst' : Forall (λ p, stateless (pattern p)) (filter P patterns)).
  { rewrite Forall_forall in *. intros p [_ Hp]%list_elem_of_filter.
    by apply Hst. }
  rewrite (scan_stateless _ _ _ _ Hst), (scan_stateless _ _ _ _ Hst').
  cbn [fst]. destruct (isPatternsFile filePath); [done|]. apply hits_filter.
Qed.

Lemma scan_filter_rules_witness :
  (scanForUnsafePatterns two_lines
     (filter (λ p, severity p = high) unsafePatterns) None ∅).1 =
  filter (λ d, severity (Detection.pattern d) = high)
    (scanForUnsafePatterns two_lines unsafePatterns None ∅).1.
Proof.
  assert (H : Forall (λ p, stateless (pattern p)) unsafePatterns).
  { unfold stateless. repeat constructor. }
  exact (scan_filter_rules (λ p, severity p = high) two_lines
           unsafePatterns None ∅ H).
Defined.

Lemma hits_app patterns i (l1 l2 : list jsstring) :
  hits patterns i (l1 ++ l2) =
  hits patterns i l1 ++ hits patterns (i + length l1) l2.
Proof.
  revert i. induction l1 as [|line l1 IH]; intros i; simpl.
  - by rewrite Nat.add_0_r.
  - by rewrite IH, <- app_assoc, Nat.add_succ_r.
Qed.

(** X18. With the catalog, a line feed at the end of the text changes
    nothing: the empty last line it adds is matched by no rule. *)
Theorem scan_final_line_feed (content : jsstring)
    (filePath : option jsstring) (σ : store) :
  scanForUnsafePatterns (content ++ nl) unsafePatterns filePath σ =
  scanForUnsafePatterns content unsafePatterns filePath σ.
Proof.
  rewrite !(scan_stateless _ _ _ _ unsafePatterns_stateless).
  destruct (isPatternsFile filePath); [done|]. f_equal.
  unfold nl. rewrite split_app, hits_app. cbn [split hits].
  assert (filter (λ p, hit p []) unsafePatterns = []) as ->
    by (vm_compute; reflexivity).
  by rewrite !app_nil_r.
Qed.
